(** * curriculum/getChallenges.js: curriculum assembly

    A shallow embedding of [curriculum/getChallenges.js].  Functions of the
    module are Rocq functions of the same name; a promise that rejects (a
    thrown [Error]) is an [Err] result carrying the message; the file
    system, the environment and the modules that [getChallenges.js] imports
    (parsers, slug helpers, the polyvinyl file model, the translation
    parser) are fields of one record of collaborators, [Host]. *)

From Stdlib Require Import ZArith String Ascii List.
From stdpp Require Import base option list gmap strings pretty.

Set Warnings "-register-all".

Local Open Scope string_scope.
Local Open Scope Z_scope.

(** ** JavaScript values and the built-ins the module relies on *)

Module Js.

(** Strings are sequences of code units; only code units below 256 occur in
    directory names and dictionary keys, so [string] is used as it stands. *)

Definition nl : string := String (ascii_of_nat 10) "".

(** [String.prototype.split(sep)] for a one-character separator. *)
Fixpoint split (sep : ascii) (s : string) : list string :=
  match s with
  | EmptyString => [""]
  | String c s' =>
      if Ascii.eqb c sep then "" :: split sep s'
      else match split sep s' with
           | [] => [String c ""]
           | h :: t => String c h :: t
           end
  end.

(** [Array.prototype.join(sep)] on an array of strings. *)
Fixpoint join (sep : string) (l : list string) : string :=
  match l with
  | [] => ""
  | [x] => x
  | x :: t => x +:+ sep +:+ join sep t
  end.

(** White space skipped by [parseInt] (code units below 256): TAB, LF, VT,
    FF, CR, SP and NBSP. *)
Definition isWhiteSpace (c : ascii) : bool :=
  let n := nat_of_ascii c in
  ((9 <=? n)%nat && (n <=? 13)%nat) || (n =? 32)%nat || (n =? 160)%nat.

Fixpoint trimStart (s : string) : string :=
  match s with
  | String c s' => if isWhiteSpace c then trimStart s' else s
  | EmptyString => ""
  end.

Definition digitValue (c : ascii) : option Z :=
  let n := nat_of_ascii c in
  if ((48 <=? n)%nat && (n <=? 57)%nat)%bool then Some (Z.of_nat n - 48) else None.

(** The value of the longest prefix of decimal digits; [None] when there is
    no digit at all. *)
Fixpoint parseDigits (acc : Z) (seen : bool) (s : string) : option Z :=
  match s with
  | String c s' =>
      match digitValue c with
      | Some d => parseDigits (10 * acc + d) true s'
      | None => if seen then Some acc else None
      end
  | EmptyString => if seen then Some acc else None
  end.

(** [parseInt(s, 10)].  [None] is [NaN], which is what [isNaN] tests; a
    result is the mathematical integer the digits denote.  The code's result
    is a double: it is that integer up to 2^53 in magnitude, and the nearest
    double beyond, which is not modelled; [exactBound] marks the range in
    which the two agree. *)
Definition parseInt (s : string) : option Z :=
  match trimStart s with
  | String "-" r => Z.opp <$> parseDigits 0 false r
  | String "+" r => parseDigits 0 false r
  | r => parseDigits 0 false r
  end.

(** Decimal numerals, to state what [parseInt] reads: a string starts with
    a numeral when, after leading white space and one optional sign, a
    decimal digit comes first. *)
Definition isDigit (c : ascii) : bool :=
  match digitValue c with Some _ => true | None => false end.

Definition startsWithDigit (s : string) : bool :=
  match s with
  | String c _ => isDigit c
  | EmptyString => false
  end.

Definition startsWithNumeral (s : string) : bool :=
  match trimStart s with
  | String "-" r | String "+" r => startsWithDigit r
  | r => startsWithDigit r
  end.

Fixpoint allDigits (s : string) : bool :=
  match s with
  | EmptyString => true
  | String c r => isDigit c && allDigits r
  end.

(** The number a string of decimal digits denotes. *)
Definition decimal (digits : string) : Z :=
  fold_left (fun acc c => 10 * acc + Z.of_nat (nat_of_ascii c) - 48)
    (list_ascii_of_string digits) 0.

(** 2^53: every integer up to it is a double, so [parseInt] returns it as
    it is. *)
Definition exactBound : Z := 9007199254740992.

(** *** Inherited properties

    The names an object literal answers to without having them as own
    properties: the members of [Object.prototype].  Each of them reads as a
    truthy value (a function, or the prototype itself for [__proto__]) that
    has none of the properties this module stores. *)
Definition inherited (name : string) : bool :=
  existsb (String.eqb name)
    ["constructor"; "__defineGetter__"; "__defineSetter__"; "hasOwnProperty";
     "__lookupGetter__"; "__lookupSetter__"; "isPrototypeOf";
     "propertyIsEnumerable"; "toString"; "valueOf"; "__proto__";
     "toLocaleString"].

(** *** Values

    [undefined], [null], booleans, integers, strings, arrays and plain
    objects (as JSON gives them).  Numbers are integers: the module does no
    arithmetic on the values it carries around. *)
Inductive Val :=
| VUndefined
| VNull
| VBool (b : bool)
| VNum (n : Z)
| VStr (s : string)
| VArr (l : list Val)
| VObj (fields : list (string * Val)).

(** Truthiness, as [if (v)], [!v] and [a || b] read it. *)
Definition truthy (v : Val) : bool :=
  match v with
  | VUndefined | VNull => false
  | VBool b => b
  | VNum n => negb (n =? 0)
  | VStr s => negb (String.eqb s "")
  | VArr _ | VObj _ => true
  end.

(** [a || b] *)
Definition or (a b : Val) : Val := if truthy a then a else b.

(** [a === b].  Arrays and objects are compared by reference; two values
    that come from different files are never the same reference. *)
Definition strictEq (a b : Val) : bool :=
  match a, b with
  | VUndefined, VUndefined | VNull, VNull => true
  | VBool x, VBool y => Bool.eqb x y
  | VNum x, VNum y => x =? y
  | VStr x, VStr y => String.eqb x y
  | _, _ => false
  end.

(** [typeof v === 'boolean'] *)
Definition isBoolean (v : Val) : bool :=
  match v with VBool _ => true | _ => false end.

(** The abstract operation ToString (template literals, property keys).
    A number is an integer and prints in decimal notation, as the code
    prints every integer below 10^21 in magnitude. *)
Fixpoint toStr (v : Val) : string :=
  match v with
  | VUndefined => "undefined"
  | VNull => "null"
  | VBool true => "true"
  | VBool false => "false"
  | VNum n => pretty n
  | VStr s => s
  | VArr l =>
      join "," (map (fun x => match x with
                              | VUndefined | VNull => ""
                              | _ => toStr x
                              end) l)
  | VObj _ => "[object Object]"
  end.

(** [arr.join(sep)]: [undefined] and [null] elements print as nothing. *)
Definition arrayJoin (sep : string) (l : list Val) : string :=
  join sep (map (fun x => match x with
                          | VUndefined | VNull => ""
                          | _ => toStr x
                          end) l).

(** lodash's [toString]: [''] for [null] and [undefined]. *)
Definition lodashToString (v : Val) : string :=
  match v with
  | VUndefined | VNull => ""
  | _ => toStr v
  end.

(** [a.concat(b)]: an array argument is spread, anything else is appended
    as one element. *)
Definition concat (a : list Val) (b : Val) : list Val :=
  match b with
  | VArr l => a ++ l
  | _ => a ++ [b]
  end.

(** [arr.includes(x)] on an array of strings. *)
Definition includes (x : string) (l : list string) : bool :=
  existsb (String.eqb x) l.

(** lodash's [findIndex(array, predicate)]; a missing array gives -1. *)
Fixpoint findIndexFrom {A} (p : A -> bool) (l : list A) (i : Z) : Z :=
  match l with
  | [] => -1
  | x :: t => if p x then i else findIndexFrom p t (i + 1)
  end.

Definition findIndex {A} (l : option (list A)) (p : A -> bool) : Z :=
  match l with
  | None => -1
  | Some l => findIndexFrom p l 0
  end.

(** *** Objects whose keys are enumerated

    An object that the code enumerates ([Object.keys], lodash's [reduce])
    keeps its keys in insertion order; assigning to an existing key keeps
    its place.  (Keys that are canonical array indices would be enumerated
    first, in ascending order: the keys here are language names and file
    keys, and what is proved of such objects is by key, not by position.) *)
Definition Dict (A : Type) : Type := list (string * A).

Fixpoint dictSet {A} (k : string) (v : A) (d : Dict A) : Dict A :=
  match d with
  | [] => [(k, v)]
  | (k', v') :: t =>
      if String.eqb k k' then (k, v) :: t else (k', v') :: dictSet k v t
  end.

Fixpoint dictGet {A} (k : string) (d : Dict A) : option A :=
  match d with
  | [] => None
  | (k', v') :: t => if String.eqb k k' then Some v' else dictGet k t
  end.

Definition dictKeys {A} (d : Dict A) : list string := map fst d.

(** *** Thrown errors *)
Inductive Exn :=
| Error (message : string)
| TypeError.

Inductive Result (A : Type) :=
| Ok (a : A)
| Err (e : Exn).
Arguments Ok {A} a.
Arguments Err {A} e.

Definition bind {A B} (r : Result A) (k : A -> Result B) : Result B :=
  match r with
  | Ok a => k a
  | Err e => Err e
  end.

(** A left fold whose step may throw, as [reduce] with a throwing
    callback. *)
Fixpoint reduceM {A B} (f : B -> A -> Result B) (l : list A) (acc : B) : Result B :=
  match l with
  | [] => Ok acc
  | x :: t => bind (f acc x) (reduceM f t)
  end.

End Js.

Notation "'do' x <- e ; k" := (Js.bind e (fun x => k))
  (at level 10, x name, e at level 100, k at level 200, only parsing).

(** ** Node's [path] module (POSIX) *)

Module NodePath.

Definition sep : ascii := "/"%char.

(** [path.extname] scans the path from its end.  Its loop state: where the
    last dot of the last component is ([startDot]), where that component
    starts and ends ([startPart], [endAt]), whether only trailing slashes
    have been seen so far ([matchedSlash]), and what was seen before the
    dot ([preDotState]: 0 nothing, -1 an ordinary character, 1 a dot). *)
Record ExtState := {
  startDot : Z;
  startPart : Z;
  endAt : Z;
  matchedSlash : bool;
  preDotState : Z
}.

Definition extInit : ExtState :=
  {| startDot := -1; startPart := 0; endAt := -1;
     matchedSlash := true; preDotState := 0 |}.

(** [for (let i = path.length - 1; i >= 0; --i)]: [n] is [i + 1]. *)
Fixpoint extLoop (path : string) (n : nat) (st : ExtState) : ExtState :=
  match n with
  | O => st
  | S i =>
      match String.get i path with
      | None => st
      | Some c =>
          if Ascii.eqb c "/" then
            if negb (matchedSlash st) then
              {| startDot := startDot st; startPart := Z.of_nat i + 1;
                 endAt := endAt st; matchedSlash := matchedSlash st;
                 preDotState := preDotState st |}
            else extLoop path i st
          else
            let st1 :=
              if endAt st =? -1 then
                {| startDot := startDot st; startPart := startPart st;
                   endAt := Z.of_nat i + 1; matchedSlash := false;
                   preDotState := preDotState st |}
              else st in
            let st2 :=
              if Ascii.eqb c "." then
                if startDot st1 =? -1 then
                  {| startDot := Z.of_nat i; startPart := startPart st1;
                     endAt := endAt st1; matchedSlash := matchedSlash st1;
                     preDotState := preDotState st1 |}
                else if negb (preDotState st1 =? 1) then
                  {| startDot := startDot st1; startPart := startPart st1;
                     endAt := endAt st1; matchedSlash := matchedSlash st1;
                     preDotState := 1 |}
                else st1
              else if negb (startDot st1 =? -1) then
                {| startDot := startDot st1; startPart := startPart st1;
                   endAt := endAt st1; matchedSlash := matchedSlash st1;
                   preDotState := -1 |}
              else st1 in
            extLoop path i st2
      end
  end.

(** [path.extname(path)]: the extension of the last component, from its
    last dot on, or the empty string. *)
Definition extname (path : string) : string :=
  let st := extLoop path (String.length path) extInit in
  if (startDot st =? -1) || (endAt st =? -1) || (preDotState st =? 0)
     || ((preDotState st =? 1) && (startDot st =? endAt st - 1)
         && (startDot st =? startPart st + 1))
  then ""
  else substring (Z.to_nat (startDot st))
                 (Z.to_nat (endAt st - startDot st)) path.

(** The loop's invariant: once a dot has been recorded it lies before the
    recorded end, and the character there is a dot. *)
Definition dotRecorded (path : string) (n : nat) (st : ExtState) : Prop :=
  (endAt st = -1 \/ Z.of_nat n < endAt st)
  /\ (startDot st = -1
      \/ (0 <= startDot st < endAt st
          /\ String.get (Z.to_nat (startDot st)) path = Some "."%char)).

End NodePath.

(** ** Superblock naming *)

Record SuperBlockInfo := {
  sb_order : Z;
  sb_name : string
}.

(** [superBlockInfo(fileName)] *)
Definition superBlockInfo (fileName : string) : SuperBlockInfo :=
  let parts := Js.split "-" fileName in
  let maybeOrder := hd "" parts in
  let superBlock := tl parts in
  match Js.parseInt maybeOrder with
  | None => {| sb_order := 0; sb_name := fileName |}
  | Some order => {| sb_order := order; sb_name := Js.join "-" superBlock |}
  end.

(** [superBlockInfoFromPath(filePath)] *)
Definition superBlockInfoFromPath (filePath : string) : SuperBlockInfo :=
  let maybeSuper := hd "" (Js.split NodePath.sep filePath) in
  superBlockInfo maybeSuper.

(** [getBlockNameFromPath(filePath)]: the second component, [None] for
    [undefined]. *)
Definition getBlockNameFromPath (filePath : string) : option string :=
  match Js.split NodePath.sep filePath with
  | _ :: block :: _ => Some block
  | _ => None
  end.

(** ** Data model *)

(** A block's [meta.json].  Fields hold the JSON value found there,
    [VUndefined] when the field is missing; [required] and [challengeOrder]
    are arrays when present, the latter an array of [[id, title]] tuples. *)
Record Meta := {
  meta_name : Js.Val;
  meta_order : Js.Val;
  meta_superOrder : Js.Val;
  meta_isPrivate : Js.Val;
  meta_required : option (list Js.Val);
  meta_template : Js.Val;
  meta_time : Js.Val;
  meta_isUpcomingChange : Js.Val;
  meta_challengeOrder : option (list (list Js.Val))
}.

(** A seed or solution file: an object with [key], [head], [contents],
    [tail] and whatever else the parser or polyvinyl put there. *)
Abbreviation FileObj := (gmap string Js.Val).

(** [obj.field], [undefined] when the field is missing. *)
Definition prop (o : FileObj) (field : string) : Js.Val :=
  default Js.VUndefined (o !! field).

(** The [files] / [solutionFiles] field of a challenge: missing, the array
    the parser produces, or the keyed object [prepareChallenge] leaves. *)
Inductive Files :=
| NoFiles
| FileArray (l : list FileObj)
| FileMap (d : Js.Dict FileObj).

(** A challenge object, by the fields this module reads or assigns; a field
    that is not set is [VUndefined]. *)
Record Challenge := {
  ch_id : Js.Val;
  ch_title : Js.Val;
  ch_originalTitle : Js.Val;
  ch_challengeType : Js.Val;
  ch_block : Js.Val;
  ch_dashedName : Js.Val;
  ch_order : Js.Val;
  ch_superOrder : Js.Val;
  ch_superBlock : Js.Val;
  ch_challengeOrder : Js.Val;
  ch_isPrivate : Js.Val;
  ch_required : Js.Val;
  ch_template : Js.Val;
  ch_time : Js.Val;
  ch_helpCategory : Js.Val;
  ch_name : Js.Val;
  ch_files : Files;
  ch_solutionFiles : Files;
  ch_others : gmap string Js.Val
}.

(** An entry of a comment dictionary. *)
Record Comment := {
  cm_id : string;
  cm_text : string
}.

(** English comment text to language to translated text. *)
Abbreviation CommentMap := (gmap string (gmap string string)).

(** What [createCommentMap] reads under the dictionaries directory. *)
Record Dictionaries := {
  readdirSync : list string;
  requireComments : string -> Js.Result (list Comment);
  COMMENTS_TO_TRANSLATE : list Comment;
  COMMENTS_TO_NOT_TRANSLATE : list Comment
}.

(** An entry of the directory walk ([readdirp-walk]). *)
Record File := {
  f_name : string;
  f_depth : Z;
  f_path : string;
  f_isDirectory : bool
}.

Record BlockInfo := {
  bi_meta : Meta;
  bi_challenges : list Challenge
}.

Record SuperBlock := {
  su_superBlock : string;
  su_order : Z;
  su_blocks : gmap string BlockInfo
}.

(** The curriculum object, keyed by superblock name; [su_blocks] is keyed
    by block directory name.  Both are plain objects used as maps: the maps
    hold their own properties, and [Js.inherited] tells the names they
    answer to besides, which [buildCurriculum] takes into account where it
    reads them. *)
Abbreviation Curriculum := (gmap string SuperBlock).

(** The collaborators: file system and environment, and what the module
    imports from the rest of the repository. *)
Record Host := {
  dirname : string;
  path_resolve : list string -> string;
  path_join : list string -> string;
  fileExists : string -> bool;
  requireMeta : string -> Js.Result Meta;
  readDirP : string -> list File;
  SHOW_UPCOMING_CHANGES : option string;
  supportedLangs : list string;
  isAuditedCert : string -> string -> bool;
  parseMD : string -> Js.Result Challenge;
  parseMarkdown : string -> Js.Result Challenge;
  translateCommentsInChallenge :
    Challenge -> string -> CommentMap -> Js.Result Challenge;
  mergeChallenges : Challenge -> Challenge -> Js.Result Challenge;
  dasherize : Js.Val -> string;
  nameify : Js.Val -> string;
  blockNameify : Js.Val -> string;
  createPoly : FileObj -> Js.Result FileObj;
  helpCategoryMap : string -> Js.Val;
  COMMENT_TRANSLATIONS : CommentMap
}.

(** ** The comment dictionary *)

(** [fs.readdirSync(dictionariesDir).filter(x => x !== 'english')]: the
    languages that have a dictionary. *)
Definition dictionaryLanguages (d : Dictionaries) : list string :=
  List.filter (fun x => negb (String.eqb x "english")) (readdirSync d).

(** [dict] has an entry whose id is that of [c]. *)
Definition hasTranslation (dict : list Comment) (c : Comment) : bool :=
  existsb (fun entry => String.eqb (cm_id c) (cm_id entry)) dict.

(** [getTranslatableComments(dictionariesDir)] *)
Definition getTranslatableComments (d : Dictionaries) : list string :=
  map cm_text (COMMENTS_TO_TRANSLATE d).

Definition missingTranslation (text engId : string) : string :=
  "Missing translation for comment" +:+ Js.nl +:+
  "'" +:+ text +:+ "'" +:+ Js.nl +:+
  "        with id of " +:+ engId.

(** [getTranslationEntry(dicts, { engId, text })] *)
Definition getTranslationEntry (dicts : Js.Dict (list Comment))
    (engId text : string) : Js.Result (gmap string string) :=
  Js.reduceM
    (fun acc lang =>
       match Js.dictGet lang dicts with
       | None => Js.Err Js.TypeError
       | Some dict =>
           match find (fun c => String.eqb engId (cm_id c)) dict with
           | Some entry => Js.Ok (<[lang := cm_text entry]> acc)
           | None => Js.Err (Js.Error (missingTranslation text engId))
           end
       end)
    (Js.dictKeys dicts) ∅.

(** [languages.reduce((acc, lang) => ({ ...acc, [lang]: text }), {})] *)
Definition englishEntry (languages : list string) (text : string)
    : gmap string string :=
  fold_left (fun acc lang => <[lang := text]> acc) languages ∅.

(** [createCommentMap(dictionariesDir)] *)
Definition createCommentMap (d : Dictionaries) : Js.Result CommentMap :=
  let languages := dictionaryLanguages d in
  do dictionaries <-
    Js.reduceM
      (fun acc lang =>
         do dict <- requireComments d lang;
         Js.Ok (Js.dictSet lang dict acc))
      languages [];
  do translatedCommentMap <-
    Js.reduceM
      (fun (acc : CommentMap) c =>
         do entry <- getTranslationEntry dictionaries (cm_id c) (cm_text c);
         Js.Ok (<[cm_text c := entry]> acc))
      (COMMENTS_TO_TRANSLATE d) ∅;
  let untranslatableCommentMap : CommentMap :=
    fold_left
      (fun acc c => <[cm_text c := englishEntry languages (cm_text c)]> acc)
      (COMMENTS_TO_NOT_TRANSLATE d) ∅ in
  Js.Ok (untranslatableCommentMap ∪ translatedCommentMap).

(** ** Preparing a challenge *)

(** [arrToString(arr)] *)
Definition arrToString (arr : Js.Val) : string :=
  match arr with
  | Js.VArr l => Js.arrayJoin Js.nl l
  | _ => Js.lodashToString arr
  end.

(** The elements lodash's [reduce] visits. *)
Definition fileList (files : Files) : list FileObj :=
  match files with
  | NoFiles => []
  | FileArray l => l
  | FileMap d => map snd d
  end.

(** [{ ...file, head: arrToString(file.head), contents: ..., tail: ... }] *)
Definition stringified (file : FileObj) : FileObj :=
  <["tail" := Js.VStr (arrToString (prop file "tail"))]>
    (<["contents" := Js.VStr (arrToString (prop file "contents"))]>
       (<["head" := Js.VStr (arrToString (prop file "head"))]> file)).

(** [filesToObject(files)] *)
Definition filesToObject (files : Files) : Js.Dict FileObj :=
  fold_left
    (fun map file => Js.dictSet (Js.toStr (prop file "key")) (stringified file) map)
    (fileList files) [].

(** [v.slice(0)]: a copy of a string or of an array. *)
Definition slice0 (v : Js.Val) : Js.Result Js.Val :=
  match v with
  | Js.VStr s => Js.Ok (Js.VStr s)
  | Js.VArr l => Js.Ok (Js.VArr l)
  | _ => Js.Err Js.TypeError
  end.

(** The [files] that [prepareChallenge] leaves: keyed, each a polyvinyl
    with its [seed]. *)
Definition prepareFiles (H : Host) (files : Files) : Js.Result Files :=
  match files with
  | NoFiles => Js.Ok NoFiles
  | _ =>
      let keyed := filesToObject files in
      do polys <-
        Js.reduceM
          (fun files file =>
             do poly <- createPoly H file;
             do seed <- slice0 (prop file "contents");
             Js.Ok (Js.dictSet (Js.toStr (prop file "key"))
                      (<["seed" := seed]> poly) files))
          (omap (fun key => Js.dictGet key keyed) (Js.dictKeys keyed)) [];
      Js.Ok (FileMap polys)
  end.

(** [prepareChallenge(challenge)] *)
Definition prepareChallenge (H : Host) (challenge : Challenge)
    : Js.Result Challenge :=
  do files <- prepareFiles H (ch_files challenge);
  Js.Ok
    {| ch_id := ch_id challenge;
       ch_title := ch_title challenge;
       ch_originalTitle := ch_originalTitle challenge;
       ch_challengeType := ch_challengeType challenge;
       ch_block := Js.VStr (dasherize H (ch_block challenge));
       ch_dashedName := ch_dashedName challenge;
       ch_order := ch_order challenge;
       ch_superOrder := ch_superOrder challenge;
       ch_superBlock := Js.VStr (blockNameify H (ch_superBlock challenge));
       ch_challengeOrder := ch_challengeOrder challenge;
       ch_isPrivate := ch_isPrivate challenge;
       ch_required := ch_required challenge;
       ch_template := ch_template challenge;
       ch_time := ch_time challenge;
       ch_helpCategory := ch_helpCategory challenge;
       ch_name := Js.VStr (nameify H (ch_title challenge));
       ch_files := files;
       ch_solutionFiles :=
         match ch_solutionFiles challenge with
         | NoFiles => NoFiles
         | solutionFiles => FileMap (filesToObject solutionFiles)
         end;
       ch_others := ch_others challenge |}.

(** ** Creating a challenge *)

(** [parseTranslation(engPath, transPath, dict, lang, parse)] *)
Definition parseTranslation (H : Host) (engPath transPath : string)
    (dict : CommentMap) (lang : string)
    (parse : string -> Js.Result Challenge) : Js.Result Challenge :=
  do engChal <- parse engPath;
  do translatedChal <- parse transPath;
  do engWithTranslatedComments <-
    (if negb (Js.strictEq (ch_challengeType engChal) (Js.VNum 11))
     then translateCommentsInChallenge H engChal lang dict
     else Js.Ok engChal);
  mergeChallenges H engWithTranslatedComments translatedChal.

Definition challengesDir (H : Host) : string :=
  path_resolve H [dirname H; "./challenges"].

Definition metaDir (H : Host) : string :=
  path_resolve H [challengesDir H; "_meta"].


(** A value spliced into a template literal. *)
Definition tpl (o : option string) : string := default "undefined" o.

(** [hasEnglishSourceCreator(basePath)(translationPath)] *)
Definition hasEnglishSource (H : Host) (basePath translationPath : string)
    : bool :=
  let englishRoot := path_resolve H [dirname H; basePath; "english"] in
  fileExists H (path_join H [englishRoot; translationPath]).

(** [getFullPath(pathLang)] inside [createChallenge]. *)
Definition getFullPath (H : Host) (basePath filePath pathLang : string)
    : string :=
  path_resolve H [dirname H; basePath; pathLang; filePath].

Definition notAccepted (lang filePath : string) : string :=
  lang +:+ " is not a accepted language." +:+ Js.nl +:+
  "  Trying to parse " +:+ filePath.

Definition missingEnglish (filePath englishPath : string) : string :=
  "Missing English challenge for" +:+ Js.nl +:+
  filePath +:+ Js.nl +:+
  "It should be in" +:+ Js.nl +:+
  englishPath +:+ Js.nl.

(** The two parsers, and the call [createChallenge] makes to get the
    challenge: a parser on the English file, or [parseTranslation] with a
    parser. *)
Inductive Parser :=
| ParseMD
| ParseMarkdown.

Inductive ParseCall :=
| Direct (parser : Parser) (path : string)
| ViaTranslation (parser : Parser) (engPath transPath lang : string).

Definition parserOf (call : ParseCall) : Parser :=
  match call with
  | Direct p _ | ViaTranslation p _ _ _ => p
  end.

Definition runParser (H : Host) (p : Parser) : string -> Js.Result Challenge :=
  match p with
  | ParseMD => parseMD H
  | ParseMarkdown => parseMarkdown H
  end.

Definition isCert (filePath : string) : bool :=
  String.eqb (NodePath.extname filePath) "markdown".

(** The branch of [createChallenge] on [isCert] and [useEnglish]. *)
Definition parseCall (H : Host) (basePath lang filePath : string) : ParseCall :=
  let superBlock := sb_name (superBlockInfoFromPath filePath) in
  let useEnglish :=
    String.eqb lang "english" || negb (isAuditedCert H lang superBlock) in
  if isCert filePath then
    if useEnglish
    then Direct ParseMarkdown (getFullPath H basePath filePath "english")
    else ViaTranslation ParseMarkdown
           (getFullPath H basePath filePath "english")
           (getFullPath H basePath filePath lang) lang
  else
    if useEnglish
    then Direct ParseMD (getFullPath H basePath filePath "english")
    else ViaTranslation ParseMD
           (getFullPath H basePath filePath "english")
           (getFullPath H basePath filePath lang) lang.

Definition runParseCall (H : Host) (call : ParseCall) : Js.Result Challenge :=
  match call with
  | Direct p path => runParser H p path
  | ViaTranslation p engPath transPath lang =>
      parseTranslation H engPath transPath (COMMENT_TRANSLATIONS H) lang
        (runParser H p)
  end.

(** The first element of a tuple, as the pattern [[id]] binds it. *)
Definition firstOf (tuple : list Js.Val) : Js.Val :=
  match tuple with
  | [] => Js.VUndefined
  | id :: _ => id
  end.

(** The metadata [createChallenge] works with: [maybeMeta] when given,
    the block's [meta.json] otherwise. *)
Definition resolveMeta (H : Host) (filePath : string)
    (maybeMeta : option Meta) : Js.Result Meta :=
  match maybeMeta with
  | Some m => Js.Ok m
  | None =>
      requireMeta H
        (path_resolve H
           [metaDir H;
            "./" +:+ tpl (getBlockNameFromPath filePath) +:+ "/meta.json"])
  end.

(** [findIndex(meta.challengeOrder, ([id]) => id === challenge.id)] *)
Definition challengeOrderOf (meta : Meta) (challenge : Challenge) : Z :=
  Js.findIndex (meta_challengeOrder meta)
    (fun tuple => Js.strictEq (firstOf tuple) (ch_id challenge)).

(** The assignments [createChallenge] makes to the parsed challenge, from
    [challenge.block = blockName] to [challenge.helpCategory = ...]. *)
Definition decorate (H : Host) (lang filePath : string) (meta : Meta)
    (challenge : Challenge) : Challenge :=
  let superBlock := sb_name (superBlockInfoFromPath filePath) in
  let challengeOrder := challengeOrderOf meta challenge in
  let blockName := meta_name meta in
  {| ch_id := ch_id challenge;
     ch_title := ch_title challenge;
     ch_originalTitle := Js.VUndefined;
     ch_challengeType := ch_challengeType challenge;
     ch_block := blockName;
     ch_dashedName :=
       Js.VStr (if String.eqb lang "english"
                then dasherize H (ch_title challenge)
                else dasherize H (ch_originalTitle challenge));
     ch_order := meta_order meta;
     ch_superOrder := meta_superOrder meta;
     ch_superBlock := Js.VStr superBlock;
     ch_challengeOrder := Js.VNum challengeOrder;
     ch_isPrivate := Js.or (ch_isPrivate challenge) (meta_isPrivate meta);
     ch_required :=
       Js.VArr (Js.concat (default [] (meta_required meta))
                  (Js.or (ch_required challenge) (Js.VArr [])));
     ch_template := meta_template meta;
     ch_time := meta_time meta;
     ch_helpCategory :=
       Js.or (ch_helpCategory challenge)
         (helpCategoryMap H (dasherize H blockName));
     ch_name := ch_name challenge;
     ch_files := ch_files challenge;
     ch_solutionFiles := ch_solutionFiles challenge;
     ch_others := ch_others challenge |}.

(** [createChallengeCreator(basePath, lang)(filePath, maybeMeta)] *)
Definition createChallenge (H : Host) (basePath lang filePath : string)
    (maybeMeta : option Meta) : Js.Result Challenge :=
  do meta <- resolveMeta H filePath maybeMeta;
  if negb (Js.includes lang (supportedLangs H)) then
    Js.Err (Js.Error (notAccepted lang filePath))
  else if negb (String.eqb lang "english")
          && negb (hasEnglishSource H basePath filePath) then
    Js.Err (Js.Error
              (missingEnglish filePath (getFullPath H basePath filePath "english")))
  else
    do challenge <- runParseCall H (parseCall H basePath lang filePath);
    prepareChallenge H (decorate H lang filePath meta challenge).

(** ** Building the curriculum *)

(** How a call of [buildCurriculum] ends: its promise resolves (with the
    curriculum as the call left it), it rejects with a thrown error, or the
    process exits after logging. *)
Inductive Outcome :=
| Resolved (c : Curriculum)
| Rejected (e : Js.Exn)
| Exited (log : string).

Definition missingUpcomingChange (metaPath : string) : string :=
  "meta file at " +:+ metaPath +:+
  " is missing 'isUpcomingChange', it must be 'true' or 'false'".

(** [process.env.SHOW_UPCOMING_CHANGES === 'true'] *)
Definition showUpcomingChanges (H : Host) : bool :=
  match SHOW_UPCOMING_CHANGES H with
  | Some v => String.eqb v "true"
  | None => false
  end.

(** [path.resolve(__dirname, `./challenges/_meta/${blockName}/meta.json`)] *)
Definition blockMetaPath (H : Host) (blockName : option string) : string :=
  path_resolve H
    [dirname H; "./challenges/_meta/" +:+ tpl blockName +:+ "/meta.json"].

(** [buildCurriculum(file, curriculum, lang)], as one call runs from its
    start to its end with no other call completing in between: the
    curriculum object is threaded through, and the assignment after
    [await createChallenge] is part of the same call.

    [curriculum] and [blocks] are object literals.  A superblock that is not
    an own property reads as [undefined] or as an inherited member, and
    either way its [.blocks] is [undefined]: the next property access throws.
    A block that is not an own property of [blocks] reads as [undefined],
    and the leaf is skipped, unless its name is an inherited member: that
    one is truthy, has no [meta], so the challenge is created with the
    metadata loaded by path, and has no [challenges], so spreading it
    throws a TypeError. *)
Definition buildCurriculum (H : Host) (file : File) (curriculum : Curriculum)
    (lang : string) : Outcome :=
  let name := f_name file in
  let filePath := f_path file in
  if (f_depth file =? 1) && f_isDirectory file then
    let info := superBlockInfo name in
    Resolved
      (<[sb_name info :=
           {| su_superBlock := sb_name info;
              su_order := sb_order info;
              su_blocks := ∅ |}]> curriculum)
  else if (f_depth file =? 2) && f_isDirectory file then
    let blockName := getBlockNameFromPath filePath in
    let metaPath := blockMetaPath H blockName in
    match requireMeta H metaPath with
    | Js.Err e => Rejected e
    | Js.Ok blockMeta =>
        let isUpcomingChange := meta_isUpcomingChange blockMeta in
        if negb (Js.isBoolean isUpcomingChange) then
          Rejected (Js.Error (missingUpcomingChange metaPath))
        else if negb (Js.truthy isUpcomingChange) || showUpcomingChanges H then
          let superBlock := sb_name (superBlockInfoFromPath filePath) in
          let blockInfo := {| bi_meta := blockMeta; bi_challenges := [] |} in
          match curriculum !! superBlock with
          | None => Rejected Js.TypeError
          | Some sb =>
              Resolved
                (<[superBlock :=
                     {| su_superBlock := su_superBlock sb;
                        su_order := su_order sb;
                        su_blocks := <[name := blockInfo]> (su_blocks sb) |}]>
                   curriculum)
          end
        else Resolved curriculum
    end
  else if String.eqb name "meta.json" || String.eqb name ".DS_Store" then
    Resolved curriculum
  else
    let block := tpl (getBlockNameFromPath filePath) in
    let superBlock := sb_name (superBlockInfoFromPath filePath) in
    match curriculum !! superBlock with
    | None => Exited ("failed to create superBlock " +:+ superBlock)
    | Some sb =>
        match su_blocks sb !! block with
        | None =>
            if Js.inherited block then
              match createChallenge H (challengesDir H) lang filePath None with
              | Js.Err e => Rejected e
              | Js.Ok _ => Rejected Js.TypeError
              end
            else Resolved curriculum
        | Some challengeBlock =>
            let meta := bi_meta challengeBlock in
            match createChallenge H (challengesDir H) lang filePath (Some meta) with
            | Js.Err e => Rejected e
            | Js.Ok challenge =>
                Resolved
                  (<[superBlock :=
                       {| su_superBlock := su_superBlock sb;
                          su_order := su_order sb;
                          su_blocks :=
                            <[block :=
                                {| bi_meta := meta;
                                   bi_challenges :=
                                     bi_challenges challengeBlock ++ [challenge] |}]>
                              (su_blocks sb) |}]>
                     curriculum)
            end
        end
    end.

(** The walk's entries handled one after the other, each call running to
    its end before the next entry arrives.  The run resolves when every call
    does; the first call that does not is reported as the way the run fails.
    The code starts the calls without awaiting them: the lookups of a call
    happen when its entry arrives, as here, but a leaf is appended once its
    challenge is created, so that the challenges of a block may come in
    another order than their entries. *)
Fixpoint buildAll (H : Host) (lang : string) (files : list File)
    (curriculum : Curriculum) : Outcome :=
  match files with
  | [] => Resolved curriculum
  | file :: rest =>
      match buildCurriculum H file curriculum lang with
      | Resolved c => buildAll H lang rest c
      | o => o
      end
  end.





(** [needle] occurs in [text]. *)
Fixpoint mentions (text needle : string) : bool :=
  String.prefix needle text
  || match text with
     | EmptyString => false
     | String _ rest => mentions rest needle
     end.

(** ** The translation parser, from the specification *)


(** Modelled from the spec: [translateCommentsInChallenge] is defined in
    tools/challenge-md-parser/translation-parser, which is not among the
    sources.  The specification says it rewrites the English-side code
    comments to the target language by dictionary lookup: a line of seed
    code that is a key of the dictionary with an entry for [lang] is
    replaced by that entry, every other line is kept. *)
Definition translateLine (dict : CommentMap) (lang : string) (line : Js.Val)
    : Js.Val :=
  match line with
  | Js.VStr text =>
      match dict !! text ≫= (fun entry => entry !! lang) with
      | Some translated => Js.VStr translated
      | None => line
      end
  | _ => line
  end.

(** Modelled from the spec: the rewriting of [translateLine], on every
    line of a file's contents. *)
Definition translateFile (dict : CommentMap) (lang : string) (file : FileObj)
    : FileObj :=
  match file !! "contents" with
  | Some (Js.VArr lines) =>
      <["contents" := Js.VArr (map (translateLine dict lang) lines)]> file
  | Some line => <["contents" := translateLine dict lang line]> file
  | None => file
  end.

(** [{ ...challenge, files }] *)
Definition withFiles (challenge : Challenge) (files : Files) : Challenge :=
  {| ch_id := ch_id challenge;
     ch_title := ch_title challenge;
     ch_originalTitle := ch_originalTitle challenge;
     ch_challengeType := ch_challengeType challenge;
     ch_block := ch_block challenge;
     ch_dashedName := ch_dashedName challenge;
     ch_order := ch_order challenge;
     ch_superOrder := ch_superOrder challenge;
     ch_superBlock := ch_superBlock challenge;
     ch_challengeOrder := ch_challengeOrder challenge;
     ch_isPrivate := ch_isPrivate challenge;
     ch_required := ch_required challenge;
     ch_template := ch_template challenge;
     ch_time := ch_time challenge;
     ch_helpCategory := ch_helpCategory challenge;
     ch_name := ch_name challenge;
     ch_files := files;
     ch_solutionFiles := ch_solutionFiles challenge;
     ch_others := ch_others challenge |}.

(** Modelled from the spec: [translateCommentsInChallenge], as the
    rewriting of [translateFile] on every file of the challenge. *)
Definition translateCommentsInChallengeSpec (challenge : Challenge)
    (lang : string) (dict : CommentMap) : Js.Result Challenge :=
  Js.Ok
    (withFiles challenge
       match ch_files challenge with
       | NoFiles => NoFiles
       | FileArray l => FileArray (map (translateFile dict lang) l)
       | FileMap d =>
           FileMap (map (fun kv => (fst kv, translateFile dict lang (snd kv))) d)
       end).

(** Modelled from the spec: [mergeChallenges] is defined in
    tools/challenge-md-parser/translation-parser, which is not among the
    sources.  The specification gives its policy as: comments from the
    English side (its first argument, translated or not), everything else
    from the target-language parse.  It serves as the merge of the sample
    repository; what is proved of [parseTranslation] assumes of the merge
    only [mergeKeepsSeedCode]. *)
Definition mergeChallengesSpec (engChal translatedChal : Challenge)
    : Js.Result Challenge :=
  Js.Ok (withFiles translatedChal (ch_files engChal)).


(** ** A sample repository *)

Module Sample.

Definition meta (upcoming : Js.Val) : Meta :=
  {| meta_name := Js.VStr "basic-html";
     meta_order := Js.VNum 0;
     meta_superOrder := Js.VNum 1;
     meta_isPrivate := Js.VUndefined;
     meta_required := None;
     meta_template := Js.VUndefined;
     meta_time := Js.VStr "5 hours";
     meta_isUpcomingChange := upcoming;
     meta_challengeOrder :=
       Some [[Js.VStr "id-1"; Js.VStr "Say Hello"];
             [Js.VStr "id-2"; Js.VStr "Headline"]] |}.

Definition challenge (id : string) (challengeType : Z) (files : Files)
    : Challenge :=
  {| ch_id := Js.VStr id;
     ch_title := Js.VStr "Headline";
     ch_originalTitle := Js.VUndefined;
     ch_challengeType := Js.VNum challengeType;
     ch_block := Js.VUndefined;
     ch_dashedName := Js.VUndefined;
     ch_order := Js.VUndefined;
     ch_superOrder := Js.VUndefined;
     ch_superBlock := Js.VUndefined;
     ch_challengeOrder := Js.VUndefined;
     ch_isPrivate := Js.VUndefined;
     ch_required := Js.VUndefined;
     ch_template := Js.VUndefined;
     ch_time := Js.VUndefined;
     ch_helpCategory := Js.VUndefined;
     ch_name := Js.VUndefined;
     ch_files := files;
     ch_solutionFiles := NoFiles;
     ch_others := ∅ |}.

(** A seed file with one line of contents. *)
Definition seed (key line : string) : FileObj :=
  <["key" := Js.VStr key]>
    (<["head" := Js.VArr []]>
       (<["contents" := Js.VArr [Js.VStr line]]>
          (<["tail" := Js.VArr []]> ∅))).

(** Path resolution, without normalisation: an absolute segment starts
    over, any other is appended after a ['/']. *)
Definition resolve (segments : list string) : string :=
  fold_left
    (fun acc segment =>
       if String.prefix "/" segment then segment
       else acc +:+ "/" +:+ segment)
    segments "".

(** A host over a repository at [/repo/curriculum]: [metaOf] serves the
    [meta.json] files, [present] tells which files exist, [parse] stands
    for both parsers; paths are joined with ['/']. *)
Definition host (metaOf : string -> Js.Result Meta) (present : string -> bool)
    (parse : string -> Js.Result Challenge) : Host :=
  {| dirname := "/repo/curriculum";
     path_resolve := resolve;
     path_join := Js.join "/";
     fileExists := present;
     requireMeta := metaOf;
     readDirP := fun _ => [];
     SHOW_UPCOMING_CHANGES := None;
     supportedLangs := ["english"; "espanol"; "chinese"];
     isAuditedCert := fun _ _ => true;
     parseMD := parse;
     parseMarkdown := parse;
     translateCommentsInChallenge := translateCommentsInChallengeSpec;
     mergeChallenges := mergeChallengesSpec;
     dasherize := Js.toStr;
     nameify := Js.toStr;
     blockNameify := Js.toStr;
     createPoly := fun file => Js.Ok (<["error" := Js.VNull]> file);
     helpCategoryMap := fun _ => Js.VStr "HTML-CSS";
     COMMENT_TRANSLATIONS := {[ "// hello" := {[ "espanol" := "// hola" ]} ]} |}.

(** Entries of the walk under [english/]: a superblock directory, a block
    directory in it and a challenge file in the block. *)
Definition superBlockDir : File :=
  {| f_name := "01-responsive-web-design"; f_depth := 1;
     f_path := "01-responsive-web-design"; f_isDirectory := true |}.

Definition blockDir : File :=
  {| f_name := "basic-html"; f_depth := 2;
     f_path := "01-responsive-web-design/basic-html"; f_isDirectory := true |}.

Definition leaf : File :=
  {| f_name := "headline.md"; f_depth := 3;
     f_path := "01-responsive-web-design/basic-html/headline.md";
     f_isDirectory := false |}.

(** The curriculum after [superBlockDir] alone. *)
Definition started : Curriculum :=
  {[ "responsive-web-design" :=
       {| su_superBlock := "responsive-web-design"; su_order := 1;
          su_blocks := ∅ |} ]}.

(** The repository with every [meta.json] carrying the given
    [isUpcomingChange], every file present and every file parsing to the
    challenge [id-2]. *)
Definition repo (upcoming : Js.Val) : Host :=
  host (fun _ => Js.Ok (meta upcoming)) (fun _ => true)
       (fun _ => Js.Ok (challenge "id-2" 0 NoFiles)).

(** The repository without its English files. *)
Definition noEnglish : Host :=
  host (fun _ => Js.Ok (meta (Js.VBool false))) (fun _ => false)
       (fun _ => Js.Ok (challenge "id-2" 0 NoFiles)).




(** Dictionaries: English and Spanish, the latter as given. *)
Definition dictionaries (espanol : list Comment) : Dictionaries :=
  {| readdirSync := ["english"; "espanol"];
     requireComments := fun _ => Js.Ok espanol;
     COMMENTS_TO_TRANSLATE :=
       [{| cm_id := "c1"; cm_text := "// hello" |};
        {| cm_id := "c2"; cm_text := "// bye" |}];
     COMMENTS_TO_NOT_TRANSLATE :=
       [{| cm_id := "c3"; cm_text := "// prettier-ignore" |}] |}.

(** What [createChallenge] makes of [leaf] in English. *)
Definition created : Challenge :=
  {| ch_id := Js.VStr "id-2";
     ch_title := Js.VStr "Headline";
     ch_originalTitle := Js.VUndefined;
     ch_challengeType := Js.VNum 0;
     ch_block := Js.VStr "basic-html";
     ch_dashedName := Js.VStr "Headline";
     ch_order := Js.VNum 0;
     ch_superOrder := Js.VNum 1;
     ch_superBlock := Js.VStr "responsive-web-design";
     ch_challengeOrder := Js.VNum 1;
     ch_isPrivate := Js.VUndefined;
     ch_required := Js.VArr [];
     ch_template := Js.VUndefined;
     ch_time := Js.VStr "5 hours";
     ch_helpCategory := Js.VStr "HTML-CSS";
     ch_name := Js.VStr "Headline";
     ch_files := NoFiles;
     ch_solutionFiles := NoFiles;
     ch_others := ∅ |}.

End Sample.

(** ** What a walk keeps true of the curriculum *)

(** Every superblock is filed under its own name. *)
Definition filedByName (curriculum : Curriculum) : Prop :=
  forall name sb, curriculum !! name = Some sb -> su_superBlock sb = name.

(** Every block in the curriculum has a boolean [isUpcomingChange], and it
    is false unless the toggle is set to ['true']. *)
Definition releasedOnly (H : Host) (curriculum : Curriculum) : Prop :=
  forall name sb block info,
    curriculum !! name = Some sb ->
    su_blocks sb !! block = Some info ->
    exists flag,
      meta_isUpcomingChange (bi_meta info) = Js.VBool flag
      /\ (flag = false \/ SHOW_UPCOMING_CHANGES H = Some "true").

(** Every challenge in the curriculum was created from one of [files], with
    the metadata of the block it is in, and the path of that file names the
    block and the superblock it is in. *)
Definition placed (H : Host) (lang : string) (files : list File)
    (curriculum : Curriculum) : Prop :=
  forall name sb block info challenge,
    curriculum !! name = Some sb ->
    su_blocks sb !! block = Some info ->
    In challenge (bi_challenges info) ->
    exists file,
      In file files
      /\ createChallenge H (challengesDir H) lang (f_path file)
           (Some (bi_meta info)) = Js.Ok challenge
      /\ tpl (getBlockNameFromPath (f_path file)) = block
      /\ sb_name (superBlockInfoFromPath (f_path file)) = name.

(** What [filesToObject] keeps true of the object it builds: no key twice,
    and under each key a stringified file of the input with that key. *)
Definition keyedFrom (source : list FileObj) (d : Js.Dict FileObj) : Prop :=
  NoDup (Js.dictKeys d)
  /\ Forall (fun entry =>
               exists file, In file source
                            /\ snd entry = stringified file
                            /\ fst entry = Js.toStr (prop file "key")) d.

(** ** The completion counter of [getChallengesForLang]

    [running] starts at 1; every entry of the walk adds one before its
    [buildCurriculum] starts; [done] takes one off and resolves the promise
    when the counter reaches 0.  [done] runs when a [buildCurriculum]
    promise is fulfilled and when the walk ends. *)
Record Completion := {
  running : Z;
  resolves : nat
}.

Definition counterStart : Completion := {| running := 1; resolves := 0 |}.

(** [done()] *)
Definition done (st : Completion) : Completion :=
  let left := running st - 1 in
  {| running := left;
     resolves := if left =? 0 then S (resolves st) else resolves st |}.

(** What happens during the walk: an entry arrives (['data']), the promise
    of an earlier entry is fulfilled, the walk ends (['end']). *)
Inductive WalkEvent :=
| OnData
| OnFulfilled
| OnEnd.

Definition handle (st : Completion) (e : WalkEvent) : Completion :=
  match e with
  | OnData => {| running := running st + 1; resolves := resolves st |}
  | OnFulfilled => done st
  | OnEnd => done st
  end.

Definition afterEvents (trace : list WalkEvent) : Completion :=
  fold_left handle trace counterStart.

(** The traces that can happen: a promise is fulfilled only after its entry
    arrived and at most once, the walk ends once, and no entry arrives
    after it ended. *)
Fixpoint possibleFrom (ended : bool) (outstanding : nat)
    (trace : list WalkEvent) : bool :=
  match trace with
  | [] => true
  | OnData :: rest => negb ended && possibleFrom ended (S outstanding) rest
  | OnFulfilled :: rest =>
      match outstanding with
      | O => false
      | S n => possibleFrom ended n rest
      end
  | OnEnd :: rest => negb ended && possibleFrom true outstanding rest
  end.

Definition possible (trace : list WalkEvent) : bool :=
  possibleFrom false 0 trace.

Definition isData (e : WalkEvent) : bool :=
  match e with OnData => true | _ => false end.

Definition isFulfilled (e : WalkEvent) : bool :=
  match e with OnFulfilled => true | _ => false end.

Definition isEnd (e : WalkEvent) : bool :=
  match e with OnEnd => true | _ => false end.

(** The walk has ended and every entry that arrived is fulfilled. *)
Definition allSettled (trace : list WalkEvent) : bool :=
  existsb isEnd trace
  && (length (List.filter isData trace) =? length (List.filter isFulfilled trace))%nat.

(** ** More of the sample repository *)

Module SampleWalk.


Definition entries : list File :=
  [Sample.superBlockDir; Sample.blockDir; Sample.leaf].

(** The curriculum after the whole walk. *)
Definition walked : Curriculum :=
  {[ "responsive-web-design" :=
       {| su_superBlock := "responsive-web-design"; su_order := 1;
          su_blocks :=
            {[ "basic-html" :=
                 {| bi_meta := Sample.meta (Js.VBool false);
                    bi_challenges := [Sample.created] |} ]} |} ]}.

(** A block directory named as a member of [Object.prototype], and a
    challenge file in it. *)
Definition constructorDir : File :=
  {| f_name := "constructor"; f_depth := 2;
     f_path := "01-responsive-web-design/constructor"; f_isDirectory := true |}.

Definition constructorLeaf : File :=
  {| f_name := "headline.md"; f_depth := 3;
     f_path := "01-responsive-web-design/constructor/headline.md";
     f_isDirectory := false |}.

(** Spanish entries for both comments to translate. *)
Definition espanol : list Comment :=
  [{| cm_id := "c2"; cm_text := "// adios" |};
   {| cm_id := "c1"; cm_text := "// hola" |}].

(** The comment map of [Sample.dictionaries espanol]. *)
Definition comments : CommentMap :=
  {[ "// hello" := {[ "espanol" := "// hola" ]};
     "// bye" := {[ "espanol" := "// adios" ]};
     "// prettier-ignore" := {[ "espanol" := "// prettier-ignore" ]} ]}.

End SampleWalk.

(** * Properties *)

(** ** The model on concrete inputs *)

Example split_segments :
  Js.split "-" "08-coding-interview-prep" = ["08"; "coding"; "interview"; "prep"]
  /\ Js.split "-" "" = [""]
  /\ Js.split "-" "-5-x" = [""; "5"; "x"]
  /\ Js.join "-" ["coding"; "interview"; "prep"] = "coding-interview-prep"
  /\ Js.join "-" [] = "".
Proof. repeat split; reflexivity. Qed.

Example parseInt_samples :
  map Js.parseInt ["08"; " 42px"; "-7"; "+3"; "x1"; ""; "3rd"]
  = [Some 8; Some 42; Some (-7); Some 3; None; None; Some 3].
Proof. reflexivity. Qed.

Example extname_samples :
  map NodePath.extname
    ["a/b/c.markdown"; "c.md"; "a.b/c"; ".bashrc"; "x/.."; "..."; "a..b/";
     "f.tar.gz"; "a."; ""]
  = [".markdown"; ".md"; ""; ""; ""; "."; ".b"; ".gz"; "."; ""].
Proof. vm_compute. reflexivity. Qed.

Example arrToString_samples :
  map arrToString
    [Js.VArr [Js.VStr "a"; Js.VStr "b"]; Js.VArr []; Js.VStr "x";
     Js.VUndefined; Js.VNull; Js.VNum 7]
  = ["a" +:+ Js.nl +:+ "b"; ""; "x"; ""; ""; "7"].
Proof. vm_compute. reflexivity. Qed.

(** A walk over one superblock, one block and one challenge file. *)
Example walk_released_block :
  buildAll (Sample.repo (Js.VBool false)) "english"
    [Sample.superBlockDir; Sample.blockDir; Sample.leaf] ∅
  = Resolved
      {[ "responsive-web-design" :=
           {| su_superBlock := "responsive-web-design"; su_order := 1;
              su_blocks :=
                {[ "basic-html" :=
                     {| bi_meta := Sample.meta (Js.VBool false);
                        bi_challenges := [Sample.created] |} ]} |} ]}.
Proof. vm_compute. reflexivity. Qed.

Example walk_upcoming_block :
  buildAll (Sample.repo (Js.VBool true)) "english"
    [Sample.superBlockDir; Sample.blockDir; Sample.leaf] ∅
  = Resolved Sample.started.
Proof. vm_compute. reflexivity. Qed.

(** The same walk over an excluded block named ['constructor']: its leaf
    is not skipped, the call rejects. *)
Example walk_inherited_block :
  buildAll (Sample.repo (Js.VBool true)) "english"
    [Sample.superBlockDir; SampleWalk.constructorDir; SampleWalk.constructorLeaf] ∅
  = Rejected Js.TypeError.
Proof. vm_compute. reflexivity. Qed.

(** A leaf whose superblock was never registered ends the process. *)
Example walk_without_superblock :
  buildCurriculum (Sample.repo (Js.VBool false)) Sample.leaf ∅ "english"
  = Exited "failed to create superBlock responsive-web-design".
Proof. vm_compute. reflexivity. Qed.

(** ** [parseInt], [split] and [superBlockInfo] *)

Section ParseInt.

Lemma digit_plain c d :
  Js.digitValue c = Some d ->
  Js.isWhiteSpace c = false /\ c <> "-"%char /\ c <> "+"%char
  /\ d = Z.of_nat (nat_of_ascii c) - 48.
Proof.
  destruct c as [[] [] [] [] [] [] [] []]; vm_compute; intros E;
    try discriminate E; injection E as <-; repeat split; discriminate.
Qed.

Lemma parseDigits_seen acc s : Js.parseDigits acc true s <> None.
Proof.
  revert acc; induction s as [|c s IH]; intros acc; simpl; [discriminate|].
  destruct (Js.digitValue c); [apply IH | discriminate].
Qed.

Lemma parseDigits_none acc s :
  Js.parseDigits acc false s = None <-> Js.startsWithDigit s = false.
Proof.
  destruct s as [|c s]; simpl; [tauto|].
  unfold Js.isDigit. destruct (Js.digitValue c) as [d|]; [|tauto].
  split; [intros E; now apply parseDigits_seen in E | discriminate].
Qed.

Lemma parseInt_none s :
  Js.parseInt s = None <-> Js.startsWithNumeral s = false.
Proof.
  unfold Js.parseInt, Js.startsWithNumeral.
  destruct (Js.trimStart s) as [|c r].
  - apply parseDigits_none.
  - destruct c as [[] [] [] [] [] [] [] []];
      first [ apply parseDigits_none
            | rewrite <- (parseDigits_none 0 r);
              destruct (Js.parseDigits 0 false r); simpl; split; congruence ].
Qed.

Lemma parseDigits_digits ds : forall acc seen r,
  Js.allDigits ds = true ->
  Js.startsWithDigit r = false ->
  (seen = true \/ ds <> "") ->
  Js.parseDigits acc seen (ds +:+ r)
  = Some (fold_left (fun a c => 10 * a + Z.of_nat (nat_of_ascii c) - 48)
            (list_ascii_of_string ds) acc).
Proof.
  induction ds as [|c ds IH]; intros acc seen r Hd Hr Hs; simpl in *.
  - destruct Hs as [-> | ?]; [|congruence].
    destruct r as [|c r]; simpl in *; [reflexivity|].
    unfold Js.isDigit in Hr. now destruct (Js.digitValue c).
  - apply andb_prop in Hd as [Hc Hd]. unfold Js.isDigit in Hc.
    destruct (Js.digitValue c) as [d|] eqn:E; [|discriminate].
    apply digit_plain in E as (_ & _ & _ & ->).
    rewrite (IH _ true r Hd Hr) by now left.
    do 2 f_equal. lia.
Qed.

Lemma parseInt_digits ds r :
  Js.allDigits ds = true -> ds <> "" ->
  Js.startsWithDigit r = false ->
  Js.parseInt (ds +:+ r) = Some (Js.decimal ds).
Proof.
  intros Hd Hne Hr. unfold Js.parseInt, Js.decimal.
  destruct ds as [|c ds]; [congruence|].
  pose proof Hd as Hd'. simpl in Hd'. apply andb_prop in Hd' as [Hc _].
  unfold Js.isDigit in Hc.
  destruct (Js.digitValue c) as [d|] eqn:E; [|discriminate].
  destruct (digit_plain _ _ E) as (Hw & Hm & Hp & _).
  change (String c ds +:+ r) with (String c (ds +:+ r)).
  assert (Js.trimStart (String c (ds +:+ r)) = String c (ds +:+ r)) as ->
    by (simpl; now rewrite Hw).
  transitivity (Js.parseDigits 0 false (String c ds +:+ r)).
  - change (String c ds +:+ r) with (String c (ds +:+ r)).
    clear -Hm Hp.
    destruct c as [[] [] [] [] [] [] [] []];
      first [ reflexivity | now elim Hm | now elim Hp ].
  - apply parseDigits_digits; [assumption .. | right; discriminate].
Qed.

Lemma parseInt_digits_alone ds :
  Js.allDigits ds = true -> ds <> "" ->
  Js.parseInt ds = Some (Js.decimal ds).
Proof.
  intros Hd Hne.
  assert (ds +:+ "" = ds) as E.
  { clear. induction ds as [|c ds IH]; [reflexivity|].
    change (String c ds +:+ "") with (String c (ds +:+ "")). now rewrite IH. }
  rewrite <- E at 1. now apply parseInt_digits.
Qed.

End ParseInt.

Section Split.

Lemma mentions_char_cons c d s :
  mentions (String c s) (String d "")
  = Ascii.eqb c d || mentions s (String d "").
Proof.
  cbn [mentions String.prefix].
  destruct (ascii_dec d c) as [->|Hne].
  - rewrite Ascii.eqb_refl. now destruct s.
  - destruct (Ascii.eqb_spec c d) as [->|_]; [congruence|reflexivity].
Qed.

Lemma split_single sep s :
  mentions s (String sep "") = false -> Js.split sep s = [s].
Proof.
  induction s as [|c s IH]; intros Hm; [reflexivity|].
  rewrite mentions_char_cons in Hm. apply orb_false_elim in Hm as [Hc Hs].
  simpl. rewrite Hc, (IH Hs). reflexivity.
Qed.

End Split.

(** ** [path.extname] never returns a bare word *)

Section Extname.

Import NodePath.

Lemma extLoop_dotRecorded path n : forall st,
  dotRecorded path n st -> dotRecorded path 0 (extLoop path n st).
Proof.
  induction n as [|i IH]; intros st Hst; simpl.
  - exact Hst.
  - destruct Hst as [He Hd].
    destruct (String.get i path) as [c|] eqn:Hc.
    2:{ split; [lia | exact Hd]. }
    destruct (Ascii.eqb_spec c "/") as [->|Hslash].
    { destruct (negb (matchedSlash st)).
      - split; simpl; [lia | exact Hd].
      - apply IH. split; [lia | exact Hd]. }
    apply IH.
    destruct (endAt st =? -1) eqn:Hend; simpl.
    + apply Z.eqb_eq in Hend.
      assert (startDot st = -1) as Hsd by (destruct Hd as [?|[? _]]; lia).
      destruct (Ascii.eqb_spec c ".") as [->|Hdot]; simpl.
      * rewrite Hsd; simpl. split; simpl; [lia|].
        right. rewrite Nat2Z.id. split; [lia | exact Hc].
      * rewrite Hsd; simpl. split; simpl; [lia | now left].
    + apply Z.eqb_neq in Hend.
      destruct (Ascii.eqb_spec c ".") as [->|Hdot]; simpl.
      * destruct (startDot st =? -1) eqn:Hsd; simpl.
        -- split; simpl; [lia|]. right. rewrite Nat2Z.id. split; [lia | exact Hc].
        -- destruct (negb (preDotState st =? 1)); split; simpl; (lia || exact Hd).
      * destruct (negb (startDot st =? -1)); split; simpl; (lia || exact Hd).
Qed.

Lemma substring_head n m s c :
  (0 < m)%nat -> String.get n s = Some c ->
  exists rest, substring n m s = String c rest.
Proof.
  revert s m; induction n as [|n IH]; intros s m Hm Hg.
  - destruct s as [|a s]; [discriminate|]. simpl in Hg. injection Hg as ->.
    destruct m; [lia|]. simpl. eauto.
  - destruct s as [|a s]; [discriminate|]. simpl in Hg.
    destruct m; [lia|]. simpl. apply (IH s (S m)); [lia | exact Hg].
Qed.

(** The extension is empty or starts with its dot. *)
Lemma extname_dot path :
  extname path = "" \/ exists rest, extname path = String "." rest.
Proof.
  unfold extname.
  pose proof (extLoop_dotRecorded path (String.length path) extInit) as Hinv.
  destruct Hinv as [_ Hd].
  { split; simpl; now left. }
  set (st := extLoop path (String.length path) extInit) in *.
  destruct (startDot st =? -1) eqn:Hsd; [now left|]. simpl.
  apply Z.eqb_neq in Hsd. destruct Hd as [?|[Hr Hg]]; [contradiction|].
  match goal with |- context [if ?b then _ else _] => destruct b end;
    [now left|].
  right. apply substring_head; [lia | exact Hg].
Qed.

Lemma isCert_false filePath : isCert filePath = false.
Proof.
  unfold isCert. destruct (extname_dot filePath) as [-> | [rest ->]]; reflexivity.
Qed.

End Extname.

(** ** Superblock naming (claims C3 and C10) *)

(** C3: a superblock directory name follows [<order>-<name>]:
    ["08-coding-interview-prep"] gives order 8 and name
    ["coding-interview-prep"], ["extra"] gives order 0 and the whole name;
    and whenever the part before the first ['-'] does not start with a
    numeral (after white space and one optional sign no decimal digit comes
    first, so [parseInt] yields NaN), the order is 0 and the name is the
    whole directory name. *)
Theorem superBlockInfo_convention :
  superBlockInfo "08-coding-interview-prep"
  = {| sb_order := 8; sb_name := "coding-interview-prep" |}
  /\ superBlockInfo "extra" = {| sb_order := 0; sb_name := "extra" |}
  /\ forall fileName,
       Js.startsWithNumeral (hd "" (Js.split "-" fileName)) = false ->
       Js.parseInt (hd "" (Js.split "-" fileName)) = None
       /\ superBlockInfo fileName = {| sb_order := 0; sb_name := fileName |}.
Proof.
  split; [reflexivity|]. split; [reflexivity|].
  intros fileName Hn. apply parseInt_none in Hn. split; [exact Hn|].
  unfold superBlockInfo. cbv zeta. now rewrite Hn.
Qed.

Lemma superBlockInfo_convention_witness :
  Js.startsWithNumeral (hd "" (Js.split "-" "web-design")) = false
  /\ superBlockInfo "web-design" = {| sb_order := 0; sb_name := "web-design" |}.
Proof.
  split; [reflexivity|].
  apply (proj2 (proj2 superBlockInfo_convention) "web-design"). reflexivity.
Defined.

(** C10: a name that is one numeral and nothing else (no ['-']) gives that
    number as order and the empty name, as ["08"] gives 8 and [""]; a name
    whose first segment starts with digits followed by something else gives
    as order what [parseInt] reads from those digits alone, and not 0, and
    the remaining segments as name, and not the whole name, as ["3rd-party"]
    gives 3 and ["party"].  What [parseInt] reads from the digits is the
    number they denote whenever that number is at most 2^53. *)
Theorem superBlockInfo_leading_digits :
  (forall fileName n,
     mentions fileName "-" = false ->
     Js.parseInt fileName = Some n ->
     superBlockInfo fileName = {| sb_order := n; sb_name := "" |})
  /\ superBlockInfo "08" = {| sb_order := 8; sb_name := "" |}
  /\ (forall fileName seg rest digits tail,
        Js.split "-" fileName = seg :: rest ->
        seg = digits +:+ tail ->
        digits <> "" ->
        Js.allDigits digits = true ->
        Js.startsWithDigit tail = false ->
        exists order,
          Js.parseInt digits = Some order
          /\ Js.parseInt seg = Js.parseInt digits
          /\ superBlockInfo fileName
             = {| sb_order := order; sb_name := Js.join "-" rest |}
          /\ (Js.decimal digits <= Js.exactBound -> order = Js.decimal digits))
  /\ superBlockInfo "3rd-party" = {| sb_order := 3; sb_name := "party" |}.
Proof.
  repeat split; try reflexivity.
  - intros fileName n Hm Hp. unfold superBlockInfo.
    rewrite (split_single "-" fileName Hm). cbn [hd tl]. now rewrite Hp.
  - intros fileName seg rest digits tail Hs -> Hne Hd Ht.
    exists (Js.decimal digits).
    pose proof (parseInt_digits _ _ Hd Hne Ht) as Hseg.
    pose proof (parseInt_digits_alone _ Hd Hne) as Halone.
    repeat split; [exact Halone | congruence | ].
    unfold superBlockInfo. rewrite Hs. cbn [hd tl]. now rewrite Hseg.
Qed.

Lemma superBlockInfo_leading_digits_witness :
  exists order,
    Js.parseInt "12" = Some order
    /\ Js.parseInt "12th" = Js.parseInt "12"
    /\ superBlockInfo "12th-grade-math"
       = {| sb_order := order; sb_name := "grade-math" |}
    /\ (Js.decimal "12" <= Js.exactBound -> order = Js.decimal "12").
Proof.
  exact (proj1 (proj2 (proj2 superBlockInfo_leading_digits))
           "12th-grade-math" "12th" ["grade"; "math"] "12" "th"
           eq_refl eq_refl ltac:(discriminate) eq_refl eq_refl).
Defined.

(** ** The certificate branch (claim C1) *)

(** C1: [createChallenge] compares [path.extname(filePath)], which is empty
    or starts with a dot, with ['markdown']: the test never holds, so for
    every file, language and host the parser that is called is [parseMD],
    and never [parseMarkdown], also for a file named [*.markdown]. *)
Theorem certificate_parser_never_called (H : Host) (basePath lang filePath : string) :
  isCert filePath = false
  /\ parserOf (parseCall H basePath lang filePath) = ParseMD
  /\ NodePath.extname "responsive-web-design.markdown" = ".markdown"
  /\ parserOf (parseCall H basePath lang
                 "01-responsive-web-design/certificates/responsive-web-design.markdown")
     = ParseMD.
Proof.
  assert (forall p, parserOf (parseCall H basePath lang p) = ParseMD) as Hp.
  { intros p. unfold parseCall. rewrite isCert_false.
    now destruct (_ || _). }
  repeat split; [apply isCert_false | apply Hp | apply Hp].
Qed.

(** ** Preparing the files of a challenge (claim C6) *)

Section PrepareChallenge.

Lemma prop_insert (file : FileObj) field v :
  prop (<[field := v]> file) field = v.
Proof. unfold prop. now rewrite lookup_insert_eq. Qed.

Lemma prop_insert_ne (file : FileObj) field other v :
  field <> other -> prop (<[field := v]> file) other = prop file other.
Proof. intros Hne. unfold prop. now rewrite lookup_insert_ne. Qed.

Lemma stringified_contents file :
  prop (stringified file) "contents"
  = Js.VStr (arrToString (prop file "contents")).
Proof.
  unfold stringified.
  rewrite prop_insert_ne by discriminate. apply prop_insert.
Qed.

Lemma stringified_key file :
  prop (stringified file) "key" = prop file "key".
Proof.
  unfold stringified. now rewrite !prop_insert_ne by discriminate.
Qed.

(** One file: the keyed object has one entry, and [prepareFiles] turns it
    into the polyvinyl with its seed. *)
Lemma prepareFiles_single (H : Host) file poly :
  createPoly H (stringified file) = Js.Ok poly ->
  prepareFiles H (FileArray [file])
  = Js.Ok (FileMap [(Js.toStr (prop file "key"),
                     <["seed" := Js.VStr (arrToString (prop file "contents"))]> poly)]).
Proof.
  intros Hpoly. unfold prepareFiles, filesToObject. simpl.
  rewrite String.eqb_refl. simpl. rewrite Hpoly. simpl.
  rewrite stringified_contents, stringified_key. reflexivity.
Qed.

End PrepareChallenge.

(** C6: preparing a challenge whose files are
    [[{key:'a', head:[], contents:['x'], tail:[]}]] gives a keyed [files]
    with [files.a.contents === 'x'] and [files.a.seed === 'x'], and
    assigning anything to [files.a.contents] afterwards leaves [seed] as it
    is; [createPoly], which is imported, is taken to accept the file and to
    keep its contents. *)
Theorem prepareChallenge_seed (H : Host) (challenge : Challenge) (poly : FileObj) :
  ch_files challenge = FileArray [Sample.seed "a" "x"] ->
  createPoly H (stringified (Sample.seed "a" "x")) = Js.Ok poly ->
  prop poly "contents" = prop (stringified (Sample.seed "a" "x")) "contents" ->
  exists prepared fileA,
    prepareChallenge H challenge = Js.Ok prepared
    /\ ch_files prepared = FileMap [("a", fileA)]
    /\ prop fileA "contents" = Js.VStr "x"
    /\ prop fileA "seed" = Js.VStr "x"
    /\ forall v, prop (<["contents" := v]> fileA) "seed" = Js.VStr "x".
Proof.
  intros Hfiles Hpoly Hkeep.
  pose proof (prepareFiles_single H _ _ Hpoly) as Hprep.
  assert (Js.toStr (prop (Sample.seed "a" "x") "key") = "a") as Hkey
    by (vm_compute; reflexivity).
  assert (arrToString (prop (Sample.seed "a" "x") "contents") = "x") as Hx
    by (vm_compute; reflexivity).
  rewrite Hkey, Hx in Hprep.
  rewrite stringified_contents, Hx in Hkeep.
  unfold prepareChallenge. rewrite Hfiles, Hprep. simpl.
  eexists _, _. split; [reflexivity|]. simpl. split; [reflexivity|].
  split; [|split].
  - now rewrite prop_insert_ne by discriminate.
  - apply prop_insert.
  - intros v. rewrite prop_insert_ne by discriminate. apply prop_insert.
Qed.

Lemma prepareChallenge_seed_witness :
  exists prepared fileA,
    prepareChallenge (Sample.host (fun _ => Js.Err Js.TypeError) (fun _ => false)
                        (fun _ => Js.Err Js.TypeError))
      (Sample.challenge "id-2" 0 (FileArray [Sample.seed "a" "x"]))
    = Js.Ok prepared
    /\ ch_files prepared = FileMap [("a", fileA)]
    /\ prop fileA "contents" = Js.VStr "x"
    /\ prop fileA "seed" = Js.VStr "x"
    /\ forall v, prop (<["contents" := v]> fileA) "seed" = Js.VStr "x".
Proof.
  apply (prepareChallenge_seed _ _
           (<["error" := Js.VNull]> (stringified (Sample.seed "a" "x")))).
  - reflexivity.
  - reflexivity.
  - now rewrite prop_insert_ne by discriminate.
Defined.

(** ** Error messages name what they are about *)

Section Mentions.

Lemma prefix_app n b : String.prefix n (n +:+ b) = true.
Proof.
  induction n as [|c n IH]; simpl; [now destruct b|].
  destruct (ascii_dec c c); [exact IH | congruence].
Qed.

Lemma mentions_of_prefix text n :
  String.prefix n text = true -> mentions text n = true.
Proof. intros Hp. destruct text; cbn [mentions]; now rewrite Hp. Qed.

Lemma mentions_prefix n b : mentions (n +:+ b) n = true.
Proof. apply mentions_of_prefix, prefix_app. Qed.

Lemma append_empty s : s +:+ "" = s.
Proof.
  induction s as [|c s IH]; [reflexivity|].
  change (String c s +:+ "") with (String c (s +:+ "")). now rewrite IH.
Qed.

Lemma mentions_self n : mentions n n = true.
Proof. rewrite <- (append_empty n) at 1. apply mentions_prefix. Qed.

Lemma mentions_app_r a t n : mentions t n = true -> mentions (a +:+ t) n = true.
Proof.
  intros Ht. induction a as [|c a IH]; [exact Ht|].
  change (String c a +:+ t) with (String c (a +:+ t)).
  cbn [mentions]. rewrite IH. apply orb_true_r.
Qed.

End Mentions.

Ltac mentioned :=
  repeat first [ apply mentions_prefix | apply mentions_self
               | apply mentions_app_r ].

(** ** The comment dictionary (claim C5) *)

Section CommentMap.

Lemma dictGet_set {A} k (v : A) d k' :
  Js.dictGet k' (Js.dictSet k v d)
  = if String.eqb k' k then Some v else Js.dictGet k' d.
Proof.
  induction d as [|[k0 v0] d IH]; simpl.
  - reflexivity.
  - destruct (String.eqb_spec k k0) as [->|Hne]; simpl.
    + now destruct (String.eqb k' k0).
    + rewrite IH. destruct (String.eqb_spec k' k0) as [->|]; [|reflexivity].
      destruct (String.eqb_spec k0 k); congruence.
Qed.

Lemma dictKeys_set {A} k (v : A) d k' :
  In k' (Js.dictKeys (Js.dictSet k v d)) <-> k' = k \/ In k' (Js.dictKeys d).
Proof.
  unfold Js.dictKeys. induction d as [|[k0 v0] d IH]; simpl.
  - intuition.
  - destruct (String.eqb_spec k k0) as [->|Hne]; simpl; [intuition|].
    rewrite IH. intuition.
Qed.

Variable d : Dictionaries.
Variable dictOf : string -> list Comment.

(** Loading the dictionaries: every language ends up keyed to what its
    module exports. *)
Lemma dictionaries_loaded langs : forall acc,
  (forall lang, In lang langs -> requireComments d lang = Js.Ok (dictOf lang)) ->
  exists dicts,
    Js.reduceM
      (fun acc lang =>
         do dict <- requireComments d lang;
         Js.Ok (Js.dictSet lang dict acc)) langs acc = Js.Ok dicts
    /\ (forall lang, In lang (Js.dictKeys dicts)
                     <-> In lang langs \/ In lang (Js.dictKeys acc))
    /\ (forall lang, In lang langs -> Js.dictGet lang dicts = Some (dictOf lang))
    /\ (forall lang, ~ In lang langs -> Js.dictGet lang dicts = Js.dictGet lang acc).
Proof.
  induction langs as [|l langs IH]; intros acc Hload; simpl.
  - exists acc. repeat split; intuition.
  - rewrite (Hload l) by now left. simpl.
    destruct (IH (Js.dictSet l (dictOf l) acc)) as (dicts & -> & Hk & Hin & Hout).
    { intros lang Hl. apply Hload. now right. }
    exists dicts. split; [reflexivity|]. split; [|split].
    + intros lang. rewrite Hk, dictKeys_set. intuition.
    + intros lang [<-|Hl].
      * destruct (in_dec String.string_dec l langs) as [Hl|Hl]; [now apply Hin|].
        rewrite (Hout _ Hl), dictGet_set. now rewrite String.eqb_refl.
      * now apply Hin.
    + intros lang Hn. rewrite Hout by intuition. rewrite dictGet_set.
      destruct (String.eqb_spec lang l) as [->|]; [|reflexivity].
      exfalso. apply Hn. now left.
Qed.

Lemma find_hasTranslation dict c :
  find (fun entry => String.eqb (cm_id c) (cm_id entry)) dict = None
  <-> hasTranslation dict c = false.
Proof.
  unfold hasTranslation. induction dict as [|e dict IH]; simpl; [tauto|].
  destruct (String.eqb (cm_id c) (cm_id e)); simpl; [split; discriminate | exact IH].
Qed.

Lemma hasTranslation_entry dict c :
  hasTranslation dict c = true ->
  exists entry, In entry dict /\ cm_id entry = cm_id c.
Proof.
  unfold hasTranslation. intros (e & He & Hid)%existsb_exists.
  exists e. split; [exact He|]. symmetry. now apply String.eqb_eq.
Qed.

Variable dicts : Js.Dict (list Comment).
Hypothesis dicts_get :
  forall lang, In lang (Js.dictKeys dicts) ->
               Js.dictGet lang dicts = Some (dictOf lang).

(** One comment: the entry is built when every dictionary has the id, and
    the error names the comment otherwise. *)
Lemma getTranslationEntry_cases c :
  (forallb (fun lang => hasTranslation (dictOf lang) c) (Js.dictKeys dicts) = true
   /\ exists entry, getTranslationEntry dicts (cm_id c) (cm_text c) = Js.Ok entry)
  \/ (forallb (fun lang => hasTranslation (dictOf lang) c) (Js.dictKeys dicts) = false
      /\ getTranslationEntry dicts (cm_id c) (cm_text c)
         = Js.Err (Js.Error (missingTranslation (cm_text c) (cm_id c)))).
Proof.
  unfold getTranslationEntry.
  generalize (∅ : gmap string string).
  pose proof dicts_get as Hget. revert Hget.
  generalize (Js.dictKeys dicts) as keys.
  induction keys as [|lang keys IH]; intros Hget acc; simpl.
  - left. eauto.
  - rewrite (Hget lang) by now left.
    destruct (find _ (dictOf lang)) as [entry|] eqn:Hfind.
    + assert (hasTranslation (dictOf lang) c = true) as ->.
      { destruct (hasTranslation (dictOf lang) c) eqn:E; [reflexivity|].
        apply find_hasTranslation in E. congruence. }
      simpl. apply IH. intros l Hl. apply Hget. now right.
    + apply find_hasTranslation in Hfind. rewrite Hfind. now right.
Qed.

(** The translated map: built when every comment is translated in every
    dictionary; otherwise the error names a comment that some dictionary
    lacks. *)
Lemma translatedCommentMap_cases comments : forall acc : CommentMap,
  (forallb (fun c => forallb (fun lang => hasTranslation (dictOf lang) c)
                       (Js.dictKeys dicts)) comments = true
   /\ exists m,
        Js.reduceM
          (fun (acc : CommentMap) c =>
             do entry <- getTranslationEntry dicts (cm_id c) (cm_text c);
             Js.Ok (<[cm_text c := entry]> acc)) comments acc = Js.Ok m)
  \/ (exists c lang,
        In c comments /\ In lang (Js.dictKeys dicts)
        /\ hasTranslation (dictOf lang) c = false
        /\ Js.reduceM
             (fun (acc : CommentMap) c =>
                do entry <- getTranslationEntry dicts (cm_id c) (cm_text c);
                Js.Ok (<[cm_text c := entry]> acc)) comments acc
           = Js.Err (Js.Error (missingTranslation (cm_text c) (cm_id c)))).
Proof.
  induction comments as [|c comments IH]; intros acc; simpl.
  - left. eauto.
  - destruct (getTranslationEntry_cases c) as [[Hall [entry ->]] | [Hmiss ->]].
    + rewrite Hall. simpl.
      destruct (IH (<[cm_text c := entry]> acc)) as [?|(c' & lang & ? & ? & ? & ?)];
        [now left|].
      right. exists c', lang. intuition.
    + right. simpl.
      assert (exists lang, In lang (Js.dictKeys dicts)
                           /\ hasTranslation (dictOf lang) c = false)
        as (lang & Hl & Hno).
      { clear -Hmiss. induction (Js.dictKeys dicts) as [|l ls IHl]; [discriminate|].
        simpl in Hmiss. destruct (hasTranslation (dictOf l) c) eqn:E.
        - destruct (IHl Hmiss) as (lang & ? & ?). exists lang. split; [now right|assumption].
        - exists l. split; [now left | assumption]. }
      exists c, lang. intuition.
Qed.

End CommentMap.

Section Untranslatable.

Variable languages : list string.

Lemma englishEntry_lookup text langs : forall (acc : gmap string string) lang,
  acc !! lang = Some text \/ In lang langs ->
  fold_left (fun acc lang => <[lang := text]> acc) langs acc !! lang = Some text.
Proof.
  induction langs as [|l langs IH]; intros acc lang Hl; simpl.
  - destruct Hl as [?|[]]; assumption.
  - apply IH. destruct (decide (l = lang)) as [->|Hne].
    + left. apply lookup_insert_eq.
    + destruct Hl as [?|[?|?]]; [left | congruence | now right].
      now rewrite lookup_insert_ne.
Qed.

Lemma untranslatable_lookup comments : forall (acc : CommentMap) text,
  acc !! text = Some (englishEntry languages text)
  \/ In text (map cm_text comments) ->
  fold_left
    (fun (acc : CommentMap) c =>
       <[cm_text c := englishEntry languages (cm_text c)]> acc)
    comments acc !! text
  = Some (englishEntry languages text).
Proof.
  induction comments as [|c comments IH]; intros acc text Ht; simpl.
  - destruct Ht as [?|[]]; assumption.
  - apply IH. destruct (decide (cm_text c = text)) as [<-|Hne].
    + left. apply lookup_insert_eq.
    + destruct Ht as [?|[?|?]]; [left | congruence | now right].
      now rewrite lookup_insert_ne.
Qed.

End Untranslatable.

(** C5: with the dictionaries loaded, [createCommentMap] needs, for every
    comment to translate and every language with a dictionary, an entry
    with the comment's id.  When one is missing it throws, and the message
    names the text and the id of a comment that lacks a translation; when
    none is missing it returns a map; and in the map it returns every
    comment that is not to be translated maps, for every language, to
    itself. *)
Theorem createCommentMap_complete (d : Dictionaries)
    (dictOf : string -> list Comment) :
  (forall lang, In lang (dictionaryLanguages d) ->
                requireComments d lang = Js.Ok (dictOf lang)) ->
  ((exists c lang,
      In c (COMMENTS_TO_TRANSLATE d) /\ In lang (dictionaryLanguages d)
      /\ hasTranslation (dictOf lang) c = false) ->
   exists c lang,
     In c (COMMENTS_TO_TRANSLATE d) /\ In lang (dictionaryLanguages d)
     /\ hasTranslation (dictOf lang) c = false
     /\ createCommentMap d
        = Js.Err (Js.Error (missingTranslation (cm_text c) (cm_id c)))
     /\ mentions (missingTranslation (cm_text c) (cm_id c)) (cm_text c) = true
     /\ mentions (missingTranslation (cm_text c) (cm_id c)) (cm_id c) = true)
  /\ ((forall c lang,
         In c (COMMENTS_TO_TRANSLATE d) -> In lang (dictionaryLanguages d) ->
         hasTranslation (dictOf lang) c = true) ->
      exists m, createCommentMap d = Js.Ok m)
  /\ (forall m, createCommentMap d = Js.Ok m ->
        (forall c lang,
           In c (COMMENTS_TO_TRANSLATE d) -> In lang (dictionaryLanguages d) ->
           exists entry, In entry (dictOf lang) /\ cm_id entry = cm_id c)
        /\ (forall c lang,
              In c (COMMENTS_TO_NOT_TRANSLATE d) ->
              In lang (dictionaryLanguages d) ->
              exists entry : gmap string string,
                m !! cm_text c = Some entry
                /\ entry !! lang = Some (cm_text c))).
Proof.
  intros Hload. unfold createCommentMap. cbv zeta.
  destruct (dictionaries_loaded d dictOf (dictionaryLanguages d) [] Hload)
    as (dicts & -> & Hkeys & Hget & _).
  assert (forall lang, In lang (Js.dictKeys dicts) <-> In lang (dictionaryLanguages d))
    as Hk by (intros lang; rewrite Hkeys; simpl; tauto).
  assert (forall lang, In lang (Js.dictKeys dicts) ->
                       Js.dictGet lang dicts = Some (dictOf lang)) as Hg
    by (intros lang Hl; apply Hget, Hk, Hl).
  cbn [Js.bind].
  destruct (translatedCommentMap_cases dictOf dicts Hg (COMMENTS_TO_TRANSLATE d) ∅)
    as [[Hall [tm ->]] | (c & lang & Hc & Hl & Hno & ->)]; cbn [Js.bind].
  - assert (forall c lang,
              In c (COMMENTS_TO_TRANSLATE d) -> In lang (dictionaryLanguages d) ->
              hasTranslation (dictOf lang) c = true) as Hyes.
    { intros c lang Hc Hl. rewrite forallb_forall in Hall.
      specialize (Hall c Hc). rewrite forallb_forall in Hall.
      apply Hall, Hk, Hl. }
    split; [|split].
    + intros (c & lang & Hc & Hl & Hno). rewrite (Hyes c lang Hc Hl) in Hno.
      discriminate.
    + eauto.
    + intros m [= <-]. split.
      * intros c lang Hc Hl. apply hasTranslation_entry, Hyes; assumption.
      * intros c lang Hc Hl. eexists. split.
        -- apply lookup_union_Some_l, untranslatable_lookup.
           right. now apply in_map.
        -- apply englishEntry_lookup. now right.
  - split; [|split].
    + intros _. exists c, lang. apply Hk in Hl.
      repeat split; try assumption; unfold missingTranslation; mentioned.
    + intros Hyes. apply Hk in Hl. rewrite (Hyes c lang Hc Hl) in Hno.
      discriminate.
    + intros m [=].
Qed.

(** ** Block directories and upcoming changes (claims C8 and C2) *)

Section BuildCurriculum.

Variable H : Host.
Variable lang : string.


Variable block : string.
Variable blockMeta : Meta.
Hypothesis toggle_off : showUpcomingChanges H = false.
Hypothesis block_meta :
  requireMeta H (blockMetaPath H (Some block)) = Js.Ok blockMeta.
Hypothesis block_upcoming : meta_isUpcomingChange blockMeta = Js.VBool true.

Lemma upcoming_dir_skipped dir curriculum :
  f_depth dir = 2 -> f_isDirectory dir = true ->
  getBlockNameFromPath (f_path dir) = Some block ->
  buildCurriculum H dir curriculum lang = Resolved curriculum.
Proof.
  intros Hd Hdir Hb. unfold buildCurriculum.
  rewrite Hd, Hdir, Hb, block_meta, block_upcoming, toggle_off. reflexivity.
Qed.




End BuildCurriculum.

(** C8: for a block directory whose [meta.json] loads, a value of
    [isUpcomingChange] that is not a boolean (missing included) makes
    [buildCurriculum] throw an error whose message names the path of the
    metadata file; with a boolean there, no [Error] is thrown by it. *)
Theorem isUpcomingChange_must_be_boolean (H : Host) (dir : File)
    (curriculum : Curriculum) (lang : string) (blockMeta : Meta) :
  f_depth dir = 2 -> f_isDirectory dir = true ->
  requireMeta H (blockMetaPath H (getBlockNameFromPath (f_path dir)))
  = Js.Ok blockMeta ->
  (Js.isBoolean (meta_isUpcomingChange blockMeta) = false ->
   buildCurriculum H dir curriculum lang
   = Rejected (Js.Error (missingUpcomingChange
                           (blockMetaPath H (getBlockNameFromPath (f_path dir)))))
   /\ mentions (missingUpcomingChange
                  (blockMetaPath H (getBlockNameFromPath (f_path dir))))
               (blockMetaPath H (getBlockNameFromPath (f_path dir))) = true)
  /\ (Js.isBoolean (meta_isUpcomingChange blockMeta) = true ->
      forall message,
        buildCurriculum H dir curriculum lang <> Rejected (Js.Error message)).
Proof.
  intros Hd Hdir Hmeta. unfold buildCurriculum.
  rewrite Hd, Hdir, Hmeta. cbn [Z.eqb Pos.eqb andb].
  split; intros Hb; rewrite Hb; cbn [negb].
  - split; [reflexivity|]. unfold missingUpcomingChange. mentioned.
  - intros message. destruct (_ || _); [|discriminate].
    destruct (curriculum !! _); discriminate.
Qed.

Lemma isUpcomingChange_must_be_boolean_witness :
  buildCurriculum (Sample.repo Js.VUndefined) Sample.blockDir Sample.started
    "english"
  = Rejected
      (Js.Error
         (missingUpcomingChange
            "/repo/curriculum/./challenges/_meta/basic-html/meta.json")).
Proof.
  exact (proj1 (proj1 (isUpcomingChange_must_be_boolean
                         (Sample.repo Js.VUndefined) Sample.blockDir
                         Sample.started "english" (Sample.meta Js.VUndefined)
                         eq_refl eq_refl eq_refl) eq_refl)).
Defined.

(** C2: with the toggle not set to ['true'], the directory of a block
    whose metadata has [isUpcomingChange: true] leaves the curriculum as it
    was, so the block is not an own property of its superblock's [blocks].
    A leaf of such a block is meant to be skipped, but when the block's name
    is a member of [Object.prototype] (as ['constructor'] is) the lookup
    [blocks[block]] finds the inherited member: the call never resolves.
    It creates the challenge with the metadata loaded by path and rejects,
    with the error of that creation or else with a TypeError. *)
Theorem inherited_block_leaf_not_skipped (H : Host) (lang block : string)
    (blockMeta : Meta) (dir leaf : File) (curriculum : Curriculum)
    (sb : SuperBlock) :
  showUpcomingChanges H = false ->
  requireMeta H (blockMetaPath H (Some block)) = Js.Ok blockMeta ->
  meta_isUpcomingChange blockMeta = Js.VBool true ->
  Js.inherited block = true ->
  f_depth dir = 2 -> f_isDirectory dir = true ->
  getBlockNameFromPath (f_path dir) = Some block ->
  f_isDirectory leaf = false ->
  f_name leaf <> "meta.json" -> f_name leaf <> ".DS_Store" ->
  getBlockNameFromPath (f_path leaf) = Some block ->
  curriculum !! sb_name (superBlockInfoFromPath (f_path leaf)) = Some sb ->
  su_blocks sb !! block = None ->
  buildCurriculum H dir curriculum lang = Resolved curriculum
  /\ (forall left, buildCurriculum H leaf curriculum lang <> Resolved left)
  /\ (forall created,
        createChallenge H (challengesDir H) lang (f_path leaf) None
        = Js.Ok created ->
        buildCurriculum H leaf curriculum lang = Rejected Js.TypeError)
  /\ (forall e,
        createChallenge H (challengesDir H) lang (f_path leaf) None = Js.Err e ->
        buildCurriculum H leaf curriculum lang = Rejected e).
Proof.
  intros Htoggle Hmeta Hup Hin Hd Hdir Hbd Hf Hn1 Hn2 Hb Hsb Hno.
  split; [now apply upcoming_dir_skipped with (block := block) (blockMeta := blockMeta)|].
  unfold buildCurriculum.
  rewrite Hf, !andb_false_r, Hb, Hsb.
  apply String.eqb_neq in Hn1, Hn2. rewrite Hn1, Hn2.
  cbn [orb tpl default from_option id]. rewrite Hno, Hin.
  destruct (createChallenge H (challengesDir H) lang (f_path leaf) None)
    as [created|e]; repeat split; intros; congruence.
Qed.

Lemma inherited_block_leaf_not_skipped_witness :
  buildCurriculum (Sample.repo (Js.VBool true)) SampleWalk.constructorDir
    Sample.started "english" = Resolved Sample.started
  /\ buildCurriculum (Sample.repo (Js.VBool true)) SampleWalk.constructorLeaf
       Sample.started "english" = Rejected Js.TypeError.
Proof.
  pose proof (inherited_block_leaf_not_skipped
                (Sample.repo (Js.VBool true)) "english" "constructor"
                (Sample.meta (Js.VBool true)) SampleWalk.constructorDir
                SampleWalk.constructorLeaf Sample.started
                {| su_superBlock := "responsive-web-design"; su_order := 1;
                   su_blocks := ∅ |}
                eq_refl eq_refl eq_refl eq_refl eq_refl eq_refl eq_refl eq_refl
                ltac:(discriminate) ltac:(discriminate) eq_refl eq_refl eq_refl)
    as (Hdir & _ & Hleaf & _).
  split; [exact Hdir|].
  apply (Hleaf Sample.created). reflexivity.
Defined.

(** ** The ordering index (claim C9) *)

Section ChallengeOrder.

Context {A : Type} (p : A -> bool).

Lemma findIndexFrom_spec (l : list A) : forall start,
  (Js.findIndexFrom p l start = -1 /\ forall x, In x l -> p x = false)
  \/ (exists (i : nat) x,
        Js.findIndexFrom p l start = start + Z.of_nat i
        /\ l !! i = Some x /\ p x = true
        /\ forall (j : nat) y, (j < i)%nat -> l !! j = Some y -> p y = false).
Proof.
  induction l as [|a l IH]; intros start; simpl.
  - left. split; [reflexivity | intros x []].
  - destruct (p a) eqn:Ha.
    + right. exists 0%nat, a. repeat split; [lia | assumption | lia].
    + destruct (IH (start + 1)) as [[-> Hall] | (i & x & -> & Hx & Hp & Hbefore)].
      * left. split; [reflexivity|]. intros x [<-|Hx]; auto.
      * right. exists (S i), x. repeat split; [lia | assumption | assumption |].
        intros [|j] y Hj Hy; simpl in Hy; [congruence|].
        apply (Hbefore j y); [lia | assumption].
Qed.

End ChallengeOrder.

(** C9: the [challengeOrder] of a created challenge is the index of the
    first tuple of the block's [challengeOrder] whose first element is
    strictly equal to the id of the parsed challenge, and -1 when no tuple
    matches (or the list is missing); the number is on the challenge that
    [createChallenge] returns, and the id is the parsed one. *)
Theorem challengeOrder_first_match (H : Host) (basePath lang filePath : string)
    (maybeMeta : option Meta) (created : Challenge) :
  createChallenge H basePath lang filePath maybeMeta = Js.Ok created ->
  exists meta parsed,
    resolveMeta H filePath maybeMeta = Js.Ok meta
    /\ runParseCall H (parseCall H basePath lang filePath) = Js.Ok parsed
    /\ ch_id created = ch_id parsed
    /\ ((ch_challengeOrder created = Js.VNum (-1)
         /\ forall tuple,
              In tuple (default [] (meta_challengeOrder meta)) ->
              Js.strictEq (firstOf tuple) (ch_id parsed) = false)
        \/ (exists (i : nat) tuple,
              ch_challengeOrder created = Js.VNum (Z.of_nat i)
              /\ default [] (meta_challengeOrder meta) !! i = Some tuple
              /\ Js.strictEq (firstOf tuple) (ch_id parsed) = true
              /\ forall (j : nat) earlier,
                   (j < i)%nat ->
                   default [] (meta_challengeOrder meta) !! j = Some earlier ->
                   Js.strictEq (firstOf earlier) (ch_id parsed) = false)).
Proof.
  unfold createChallenge. intros Hc.
  destruct (resolveMeta H filePath maybeMeta) as [meta|] eqn:Hm; [|discriminate].
  cbn [Js.bind] in Hc.
  destruct (negb (Js.includes lang (supportedLangs H))); [discriminate|].
  destruct (_ && _); [discriminate|].
  destruct (runParseCall H (parseCall H basePath lang filePath)) as [parsed|]
    eqn:Hp; [|discriminate].
  cbn [Js.bind] in Hc. unfold prepareChallenge in Hc.
  destruct (prepareFiles H _); [|discriminate].
  injection Hc as <-. cbn [ch_id ch_challengeOrder decorate].
  exists meta, parsed. repeat split.
  unfold challengeOrderOf, Js.findIndex.
  destruct (meta_challengeOrder meta) as [order|]; cbn [default].
  - destruct (findIndexFrom_spec
                (fun tuple => Js.strictEq (firstOf tuple) (ch_id parsed)) order 0)
      as [[-> Hall] | (i & x & -> & Hx & Hpx & Hbefore)].
    + left. split; [reflexivity | exact Hall].
    + right. exists i, x. repeat split; assumption.
  - left. split; [reflexivity | intros tuple []].
Qed.

Lemma challengeOrder_first_match_witness :
  exists meta parsed,
    resolveMeta (Sample.repo (Js.VBool false)) (f_path Sample.leaf)
      (Some (Sample.meta (Js.VBool false))) = Js.Ok meta
    /\ runParseCall (Sample.repo (Js.VBool false))
         (parseCall (Sample.repo (Js.VBool false))
            "/repo/curriculum/./challenges" "english" (f_path Sample.leaf))
       = Js.Ok parsed
    /\ ch_id Sample.created = ch_id parsed
    /\ ((ch_challengeOrder Sample.created = Js.VNum (-1)
         /\ forall tuple,
              In tuple (default [] (meta_challengeOrder meta)) ->
              Js.strictEq (firstOf tuple) (ch_id parsed) = false)
        \/ (exists (i : nat) tuple,
              ch_challengeOrder Sample.created = Js.VNum (Z.of_nat i)
              /\ default [] (meta_challengeOrder meta) !! i = Some tuple
              /\ Js.strictEq (firstOf tuple) (ch_id parsed) = true
              /\ forall (j : nat) earlier,
                   (j < i)%nat ->
                   default [] (meta_challengeOrder meta) !! j = Some earlier ->
                   Js.strictEq (firstOf earlier) (ch_id parsed) = false)).
Proof.
  apply (challengeOrder_first_match (Sample.repo (Js.VBool false))
           "/repo/curriculum/./challenges" "english").
  vm_compute. reflexivity.
Defined.

Lemma createCommentMap_complete_witness :
  createCommentMap
    (Sample.dictionaries [{| cm_id := "c1"; cm_text := "// hola" |}])
  = Js.Err (Js.Error (missingTranslation "// bye" "c2")).
Proof.
  destruct (proj1 (createCommentMap_complete
                     (Sample.dictionaries [{| cm_id := "c1"; cm_text := "// hola" |}])
                     (fun _ => [{| cm_id := "c1"; cm_text := "// hola" |}])
                     (fun _ _ => eq_refl))
              (ex_intro _ {| cm_id := "c2"; cm_text := "// bye" |}
                 (ex_intro _ "espanol"
                    (conj (or_intror (or_introl eq_refl))
                       (conj (or_introl eq_refl) eq_refl)))))
    as (c & lang & Hc & _ & Hno & Hres & _).
  destruct Hc as [<- | [<- | []]]; [discriminate Hno | exact Hres].
Defined.

(** ** The English source of a translated challenge (claim C4) *)

(** C4, as the code has it: for a language that is supported and is not
    English, with the block's metadata at hand, a leaf without its English
    counterpart makes [createChallenge] throw the error whose message names
    the leaf's path and the path where the English file should be; with the
    counterpart there the check passes and the result is that of parsing
    and preparing the challenge.  For a language that is not supported the
    language check throws first, whether the English counterpart is there
    or not: the error is the one for an unsupported language, whose message
    names the leaf's path. *)
Theorem missing_english_source (H : Host) (basePath lang filePath : string)
    (maybeMeta : option Meta) (meta : Meta) :
  resolveMeta H filePath maybeMeta = Js.Ok meta ->
  lang <> "english" ->
  (Js.includes lang (supportedLangs H) = true ->
   (hasEnglishSource H basePath filePath = false ->
    createChallenge H basePath lang filePath maybeMeta
    = Js.Err (Js.Error (missingEnglish filePath
                          (getFullPath H basePath filePath "english")))
    /\ mentions (missingEnglish filePath (getFullPath H basePath filePath "english"))
                filePath = true
    /\ mentions (missingEnglish filePath (getFullPath H basePath filePath "english"))
                (getFullPath H basePath filePath "english") = true)
   /\ (hasEnglishSource H basePath filePath = true ->
       createChallenge H basePath lang filePath maybeMeta
       = (do challenge <- runParseCall H (parseCall H basePath lang filePath);
          prepareChallenge H (decorate H lang filePath meta challenge))))
  /\ (Js.includes lang (supportedLangs H) = false ->
      createChallenge H basePath lang filePath maybeMeta
      = Js.Err (Js.Error (notAccepted lang filePath))
      /\ mentions (notAccepted lang filePath) filePath = true).
Proof.
  intros Hmeta Hne. apply String.eqb_neq in Hne.
  unfold createChallenge. rewrite Hmeta. cbn [Js.bind].
  split; intros ->; cbn [negb andb].
  - rewrite Hne. cbn [negb andb]. split; intros ->; cbn [negb].
    + split; [reflexivity|]. unfold missingEnglish. split; mentioned.
    + reflexivity.
  - split; [reflexivity|]. unfold notAccepted. mentioned.
Qed.

Lemma missing_english_source_witness :
  createChallenge Sample.noEnglish "/repo/curriculum/./challenges" "espanol"
    "01-responsive-web-design/basic-html/headline.md" None
  = Js.Err
      (Js.Error
         (missingEnglish "01-responsive-web-design/basic-html/headline.md"
            "/repo/curriculum/./challenges/english/01-responsive-web-design/basic-html/headline.md"))
  /\ createChallenge Sample.noEnglish "/repo/curriculum/./challenges" "klingon"
       "01-responsive-web-design/basic-html/headline.md" None
     = Js.Err
         (Js.Error
            (notAccepted "klingon"
               "01-responsive-web-design/basic-html/headline.md")).
Proof.
  split.
  - exact (proj1 (proj1 (proj1 (missing_english_source Sample.noEnglish
                                  "/repo/curriculum/./challenges" "espanol"
                                  "01-responsive-web-design/basic-html/headline.md"
                                  None (Sample.meta (Js.VBool false))
                                  eq_refl ltac:(discriminate)) eq_refl) eq_refl)).
  - exact (proj1 (proj2 (missing_english_source Sample.noEnglish
                           "/repo/curriculum/./challenges" "klingon"
                           "01-responsive-web-design/basic-html/headline.md"
                           None (Sample.meta (Js.VBool false))
                           eq_refl ltac:(discriminate)) eq_refl)).
Defined.

(** C4 as stated fails: a language outside the supported ones is not
    English either, and for it the language check throws first; for the
    sample leaf its message does not name the path of the English file. *)
Lemma missing_english_unsupported_language :
  ~ (forall (H : Host) (basePath lang filePath : string) (meta : Meta),
       lang <> "english" ->
       hasEnglishSource H basePath filePath = false ->
       exists message,
         createChallenge H basePath lang filePath (Some meta)
         = Js.Err (Js.Error message)
         /\ mentions message filePath = true
         /\ mentions message (getFullPath H basePath filePath "english") = true).
Proof.
  intros Hclaim.
  destruct (Hclaim Sample.noEnglish "/repo/curriculum/./challenges" "klingon"
              "01-responsive-web-design/basic-html/headline.md"
              (Sample.meta (Js.VBool false)) ltac:(discriminate) eq_refl)
    as (message & Hthrown & _ & Henglish).
  vm_compute in Hthrown. injection Hthrown as <-.
  vm_compute in Henglish. discriminate Henglish.
Qed.

(** The error for an unsupported language comes first and names the
    leaf. *)
Lemma unsupported_language_first (H : Host) (basePath lang filePath : string)
    (maybeMeta : option Meta) (meta : Meta) :
  resolveMeta H filePath maybeMeta = Js.Ok meta ->
  Js.includes lang (supportedLangs H) = false ->
  createChallenge H basePath lang filePath maybeMeta
  = Js.Err (Js.Error (notAccepted lang filePath))
  /\ mentions (notAccepted lang filePath) filePath = true.
Proof.
  intros Hmeta Hlang. unfold createChallenge. rewrite Hmeta, Hlang.
  split; [reflexivity|]. unfold notAccepted. mentioned.
Qed.

(** ** Video challenges in [parseTranslation] (claim C7) *)




(** * Further properties *)

(** ** Segments of names and paths *)

Section Segments.

Lemma split_nonempty sep s : Js.split sep s <> [].
Proof.
  destruct s as [|c s]; simpl; [discriminate|].
  destruct (Ascii.eqb c sep); [discriminate|].
  destruct (Js.split sep s); discriminate.
Qed.

(** A prefix without the separator is the first segment. *)
Lemma split_prefix sep prefix rest :
  mentions prefix (String sep "") = false ->
  Js.split sep (prefix +:+ String sep rest) = prefix :: Js.split sep rest.
Proof.
  induction prefix as [|c prefix IH]; intros Hm.
  - change ("" +:+ String sep rest) with (String sep rest).
    simpl. now rewrite Ascii.eqb_refl.
  - rewrite mentions_char_cons in Hm. apply orb_false_elim in Hm as [Hc Hp].
    change (String c prefix +:+ String sep rest)
      with (String c (prefix +:+ String sep rest)).
    simpl. rewrite Hc, (IH Hp). reflexivity.
Qed.

(** Joining the segments gives the string back. *)
Lemma join_split sep s : Js.join (String sep "") (Js.split sep s) = s.
Proof.
  induction s as [|c s IH]; [reflexivity|]. simpl.
  pose proof (split_nonempty sep s) as Hne.
  destruct (Ascii.eqb_spec c sep) as [->|_].
  - destruct (Js.split sep s) as [|h t]; [congruence|].
    change (Js.join (String sep "") ("" :: h :: t))
      with ("" +:+ String sep "" +:+ Js.join (String sep "") (h :: t)).
    rewrite IH. reflexivity.
  - destruct (Js.split sep s) as [|h [|h' t]]; [congruence| |].
    + simpl in *. now rewrite IH.
    + change (Js.join (String sep "") (String c h :: h' :: t))
        with (String c h +:+ String sep "" +:+ Js.join (String sep "") (h' :: t)).
      change (Js.join (String sep "") (h :: h' :: t))
        with (h +:+ String sep "" +:+ Js.join (String sep "") (h' :: t)) in IH.
      rewrite <- IH. reflexivity.
Qed.

Lemma hd_split_clean sep s :
  mentions (hd "" (Js.split sep s)) (String sep "") = false.
Proof.
  induction s as [|c s IH]; [reflexivity|]. cbn [Js.split].
  destruct (Ascii.eqb c sep) eqn:Hc; [reflexivity|].
  destruct (Js.split sep s) as [|h t]; cbn [hd] in *;
    rewrite mentions_char_cons, Hc; [reflexivity | exact IH].
Qed.

Lemma mentions_trimStart s needle :
  mentions s needle = false -> mentions (Js.trimStart s) needle = false.
Proof.
  induction s as [|c s IH]; intros Hm; [exact Hm|]. simpl.
  destruct (Js.isWhiteSpace c); [|exact Hm].
  apply IH. cbn [mentions] in Hm. now apply orb_false_elim in Hm as [_ ?].
Qed.

Lemma digit_nonneg c d : Js.digitValue c = Some d -> 0 <= d.
Proof.
  destruct c as [[] [] [] [] [] [] [] []]; vm_compute; intros E;
    try discriminate E; injection E as <-; discriminate.
Qed.

Lemma parseDigits_nonneg s : forall acc seen n,
  0 <= acc -> Js.parseDigits acc seen s = Some n -> 0 <= n.
Proof.
  induction s as [|c s IH]; intros acc seen n Hacc; simpl.
  - destruct seen; [intros [= <-]; exact Hacc | discriminate].
  - destruct (Js.digitValue c) as [d|] eqn:Hd.
    + apply IH. apply digit_nonneg in Hd. lia.
    + destruct seen; [intros [= <-]; exact Hacc | discriminate].
Qed.

End Segments.

Lemma parseInt_unsigned s n :
  mentions s "-" = false -> Js.parseInt s = Some n -> 0 <= n.
Proof.
  intros Hm. apply (mentions_trimStart s "-") in Hm. unfold Js.parseInt.
  destruct (Js.trimStart s) as [|c r]; [discriminate|].
  rewrite mentions_char_cons in Hm. apply orb_false_elim in Hm as [Hc _].
  destruct c as [[] [] [] [] [] [] [] []]; try discriminate Hc;
    now apply parseDigits_nonneg.
Qed.

(** X1: a directory name made of a prefix without ['-'] that [parseInt]
    reads as a number, a ['-'], and anything after it, gives that number as
    order and everything after the first ['-'] as name, later dashes
    included. *)
Theorem superBlockInfo_after_first_dash (prefix rest : string) (order : Z) :
  mentions prefix "-" = false ->
  Js.parseInt prefix = Some order ->
  superBlockInfo (prefix +:+ "-" +:+ rest)
  = {| sb_order := order; sb_name := rest |}.
Proof.
  intros Hm Hp. unfold superBlockInfo.
  change (prefix +:+ "-" +:+ rest) with (prefix +:+ String "-" rest).
  rewrite (split_prefix "-" prefix rest Hm). cbn [hd tl]. rewrite Hp.
  f_equal. apply (join_split "-").
Qed.

Lemma superBlockInfo_after_first_dash_witness :
  superBlockInfo ("08" +:+ "-" +:+ "coding-interview-prep--2")
  = {| sb_order := 8; sb_name := "coding-interview-prep--2" |}.
Proof.
  exact (superBlockInfo_after_first_dash "08" "coding-interview-prep--2" 8
           eq_refl eq_refl).
Defined.

(** X2: the order of a superblock is never negative, whatever the
    directory name: a sign that [parseInt] would read as minus cannot be in
    the part before the first ['-']. *)
Theorem superBlockInfo_order_nonnegative (fileName : string) :
  0 <= sb_order (superBlockInfo fileName).
Proof.
  unfold superBlockInfo. cbv zeta.
  destruct (Js.parseInt (hd "" (Js.split "-" fileName))) as [n|] eqn:Hp;
    cbn [sb_order]; [|lia].
  eapply parseInt_unsigned; [|exact Hp]. apply (hd_split_clean "-").
Qed.

(** X3: in a relative path the superblock is read off the first component
    and the block off the second, for a block directory as for a file below
    it; a path of one component has no block. *)
Theorem path_components (sup block rest : string) :
  mentions sup "/" = false ->
  mentions block "/" = false ->
  superBlockInfoFromPath (sup +:+ "/" +:+ block +:+ "/" +:+ rest)
  = superBlockInfo sup
  /\ getBlockNameFromPath (sup +:+ "/" +:+ block +:+ "/" +:+ rest) = Some block
  /\ superBlockInfoFromPath (sup +:+ "/" +:+ block) = superBlockInfo sup
  /\ getBlockNameFromPath (sup +:+ "/" +:+ block) = Some block
  /\ superBlockInfoFromPath sup = superBlockInfo sup
  /\ getBlockNameFromPath sup = None.
Proof.
  intros Hs Hb. unfold superBlockInfoFromPath, getBlockNameFromPath, NodePath.sep.
  change (sup +:+ "/" +:+ block +:+ "/" +:+ rest)
    with (sup +:+ String "/" (block +:+ String "/" rest)).
  change (sup +:+ "/" +:+ block) with (sup +:+ String "/" block).
  rewrite !(split_prefix "/" sup _ Hs), (split_prefix "/" block rest Hb),
    (split_single "/" block Hb), (split_single "/" sup Hs).
  cbn [hd]. pose proof (split_nonempty "/" rest).
  destruct (Js.split "/" rest); [congruence|]. repeat split.
Qed.

Lemma path_components_witness :
  superBlockInfoFromPath
    ("01-responsive-web-design" +:+ "/" +:+ "basic-html" +:+ "/" +:+ "headline.md")
  = superBlockInfo "01-responsive-web-design"
  /\ getBlockNameFromPath
       ("01-responsive-web-design" +:+ "/" +:+ "basic-html" +:+ "/" +:+ "headline.md")
     = Some "basic-html".
Proof.
  pose proof (path_components "01-responsive-web-design" "basic-html"
                "headline.md" eq_refl eq_refl) as (Hsup & Hblock & _).
  split; [exact Hsup | exact Hblock].
Defined.

(** ** Files keyed by [filesToObject] *)

Section KeyedFiles.



Lemma dictKeys_fresh {A} k (v : A) d :
  ~ In k (Js.dictKeys d) -> Js.dictSet k v d = (d ++ [(k, v)])%list.
Proof.
  unfold Js.dictKeys. induction d as [|[k0 v0] d IH]; intros Hk; simpl.
  - reflexivity.
  - destruct (String.eqb_spec k k0) as [->|_].
    + exfalso. apply Hk. now left.
    + rewrite IH; [reflexivity|]. intros Hin. apply Hk. now right.
Qed.

Lemma dictKeys_present {A} k (v : A) d :
  In k (Js.dictKeys d) -> Js.dictKeys (Js.dictSet k v d) = Js.dictKeys d.
Proof.
  unfold Js.dictKeys. induction d as [|[k0 v0] d IH]; intros Hk; simpl.
  - destruct Hk.
  - destruct (String.eqb_spec k k0) as [->|Hne]; [reflexivity|].
    simpl. rewrite IH; [reflexivity|].
    destruct Hk as [E|Hin]; [simpl in E; congruence | exact Hin].
Qed.

Lemma dictSet_NoDup {A} k (v : A) d :
  NoDup (Js.dictKeys d) -> NoDup (Js.dictKeys (Js.dictSet k v d)).
Proof.
  intros Hd. destruct (in_dec String.string_dec k (Js.dictKeys d)) as [Hk|Hk].
  - now rewrite dictKeys_present.
  - rewrite (dictKeys_fresh _ _ _ Hk). unfold Js.dictKeys in *.
    rewrite map_app. simpl. apply NoDup_app. repeat split.
    + exact Hd.
    + intros x Hx [<-|[]]%list_elem_of_In. apply Hk. now apply list_elem_of_In.
    + apply NoDup_singleton.
Qed.

Lemma dictSet_Forall {A} (P : string * A -> Prop) k v d :
  Forall P d -> P (k, v) -> Forall P (Js.dictSet k v d).
Proof.
  intros Hd Hkv. induction Hd as [|[k0 v0] d H0 Hd IH]; simpl.
  - now constructor.
  - destruct (String.eqb k k0); constructor; assumption.
Qed.



End KeyedFiles.

Section FilesToObject.


Lemma stringified_head file :
  prop (stringified file) "head" = Js.VStr (arrToString (prop file "head")).
Proof.
  unfold stringified. rewrite !prop_insert_ne by discriminate. apply prop_insert.
Qed.

Lemma stringified_tail file :
  prop (stringified file) "tail" = Js.VStr (arrToString (prop file "tail")).
Proof. unfold stringified. apply prop_insert. Qed.


Lemma filesToObject_keyedFrom source l : forall acc,
  incl l source -> keyedFrom source acc ->
  keyedFrom source
    (fold_left
       (fun map file => Js.dictSet (Js.toStr (prop file "key")) (stringified file) map)
       l acc).
Proof.
  induction l as [|a l IH]; intros acc Hl Hacc; [exact Hacc|].
  cbn [fold_left]. apply IH.
  - intros x Hx. apply Hl. now right.
  - destruct Hacc as [Hn Hf]. split.
    + now apply dictSet_NoDup.
    + apply dictSet_Forall; [exact Hf|]. exists a. split; [|split]; try reflexivity.
      apply Hl. now left.
Qed.

Lemma filesToObject_keyed files :
  keyedFrom (fileList files) (filesToObject files).
Proof.
  apply filesToObject_keyedFrom; [apply incl_refl|].
  split; [constructor | constructor].
Qed.


End FilesToObject.

Section PrepareFiles.


Lemma dictGet_In {A} (d : Js.Dict A) k v :
  Js.dictGet k d = Some v -> In (k, v) d.
Proof.
  induction d as [|[k0 v0] d IH]; [discriminate|]. cbn [Js.dictGet].
  destruct (String.eqb_spec k k0) as [->|_].
  - intros [= ->]. now left.
  - intros Hg. right. now apply IH.
Qed.


End PrepareFiles.


(** X5: a file found in the object [filesToObject] builds comes from a file
    of the input with that key; its [head], [contents] and [tail] are
    strings (what [arrToString] makes of the input's), and every other
    field is the input's. *)
Theorem filesToObject_fields (files : Files) (key : string) (keyed : FileObj) :
  Js.dictGet key (filesToObject files) = Some keyed ->
  exists file,
    In file (fileList files)
    /\ Js.toStr (prop file "key") = key
    /\ prop keyed "head" = Js.VStr (arrToString (prop file "head"))
    /\ prop keyed "contents" = Js.VStr (arrToString (prop file "contents"))
    /\ prop keyed "tail" = Js.VStr (arrToString (prop file "tail"))
    /\ forall field,
         field <> "head" -> field <> "contents" -> field <> "tail" ->
         keyed !! field = file !! field.
Proof.
  intros Hget. apply dictGet_In in Hget.
  destruct (filesToObject_keyed files) as [_ Hall].
  rewrite Forall_forall in Hall.
  destruct (Hall _ (proj2 (list_elem_of_In _ _) Hget)) as (file & Hin & Hs & Hk).
  cbn [fst snd] in Hs, Hk. subst keyed. exists file.
  split; [exact Hin|]. split; [now symmetry|].
  split; [apply stringified_head|]. split; [apply stringified_contents|].
  split; [apply stringified_tail|].
  intros field Hh Hc Ht. unfold stringified.
  now rewrite !lookup_insert_ne by congruence.
Qed.

Lemma filesToObject_fields_witness :
  exists file,
    In file [Sample.seed "indexjs" "// hello"]
    /\ Js.toStr (prop file "key") = "indexjs"
    /\ prop (stringified (Sample.seed "indexjs" "// hello")) "head"
       = Js.VStr (arrToString (prop file "head"))
    /\ prop (stringified (Sample.seed "indexjs" "// hello")) "contents"
       = Js.VStr (arrToString (prop file "contents"))
    /\ prop (stringified (Sample.seed "indexjs" "// hello")) "tail"
       = Js.VStr (arrToString (prop file "tail"))
    /\ forall field,
         field <> "head" -> field <> "contents" -> field <> "tail" ->
         stringified (Sample.seed "indexjs" "// hello") !! field = file !! field.
Proof.
  apply (filesToObject_fields (FileArray [Sample.seed "indexjs" "// hello"])
           "indexjs").
  vm_compute. reflexivity.
Defined.




(** ** What [createChallenge] returns *)

Section Created.

Variable H : Host.

Lemma prepareChallenge_created challenge created :
  prepareChallenge H challenge = Js.Ok created ->
  exists files,
    prepareFiles H (ch_files challenge) = Js.Ok files
    /\ created
       = {| ch_id := ch_id challenge;
            ch_title := ch_title challenge;
            ch_originalTitle := ch_originalTitle challenge;
            ch_challengeType := ch_challengeType challenge;
            ch_block := Js.VStr (dasherize H (ch_block challenge));
            ch_dashedName := ch_dashedName challenge;
            ch_order := ch_order challenge;
            ch_superOrder := ch_superOrder challenge;
            ch_superBlock := Js.VStr (blockNameify H (ch_superBlock challenge));
            ch_challengeOrder := ch_challengeOrder challenge;
            ch_isPrivate := ch_isPrivate challenge;
            ch_required := ch_required challenge;
            ch_template := ch_template challenge;
            ch_time := ch_time challenge;
            ch_helpCategory := ch_helpCategory challenge;
            ch_name := Js.VStr (nameify H (ch_title challenge));
            ch_files := files;
            ch_solutionFiles :=
              match ch_solutionFiles challenge with
              | NoFiles => NoFiles
              | solutionFiles => FileMap (filesToObject solutionFiles)
              end;
            ch_others := ch_others challenge |}.
Proof.
  unfold prepareChallenge.
  destruct (prepareFiles H (ch_files challenge)) as [files|]; [|discriminate].
  cbn [Js.bind]. intros [= <-]. now exists files.
Qed.

Lemma createChallenge_created basePath lang filePath maybeMeta created :
  createChallenge H basePath lang filePath maybeMeta = Js.Ok created ->
  exists meta parsed,
    resolveMeta H filePath maybeMeta = Js.Ok meta
    /\ Js.includes lang (supportedLangs H) = true
    /\ (lang = "english" \/ hasEnglishSource H basePath filePath = true)
    /\ runParseCall H (parseCall H basePath lang filePath) = Js.Ok parsed
    /\ prepareChallenge H (decorate H lang filePath meta parsed) = Js.Ok created.
Proof.
  unfold createChallenge. intros Hc.
  destruct (resolveMeta H filePath maybeMeta) as [meta|]; [|discriminate].
  cbn [Js.bind] in Hc.
  destruct (Js.includes lang (supportedLangs H)); [|discriminate].
  cbn [negb] in Hc.
  destruct (String.eqb_spec lang "english") as [Hl|Hl];
    destruct (hasEnglishSource H basePath filePath); try discriminate;
    cbn [negb andb] in Hc;
    (destruct (runParseCall H (parseCall H basePath lang filePath)) as [parsed|];
     [|discriminate]); cbn [Js.bind] in Hc;
    exists meta, parsed; repeat split; auto.
Qed.

End Created.

(** X8: the block-level fields of a created challenge come from the block's
    metadata and from the path, whatever the parsed file carried: [block] is
    the dasherized [name] of the metadata, [superBlock] the nameified
    superblock of the path, [order], [superOrder], [template] and [time]
    those of the metadata; [name] is the nameified title, the title, the
    type and the id are the parsed ones and [originalTitle] is removed. *)
Theorem created_block_fields (H : Host) (basePath lang filePath : string)
    (maybeMeta : option Meta) (created : Challenge) :
  createChallenge H basePath lang filePath maybeMeta = Js.Ok created ->
  exists meta parsed,
    resolveMeta H filePath maybeMeta = Js.Ok meta
    /\ runParseCall H (parseCall H basePath lang filePath) = Js.Ok parsed
    /\ ch_block created = Js.VStr (dasherize H (meta_name meta))
    /\ ch_superBlock created
       = Js.VStr (blockNameify H
                    (Js.VStr (sb_name (superBlockInfoFromPath filePath))))
    /\ ch_order created = meta_order meta
    /\ ch_superOrder created = meta_superOrder meta
    /\ ch_template created = meta_template meta
    /\ ch_time created = meta_time meta
    /\ ch_name created = Js.VStr (nameify H (ch_title parsed))
    /\ ch_title created = ch_title parsed
    /\ ch_challengeType created = ch_challengeType parsed
    /\ ch_id created = ch_id parsed
    /\ ch_originalTitle created = Js.VUndefined.
Proof.
  intros Hc.
  destruct (createChallenge_created H _ _ _ _ _ Hc)
    as (meta & parsed & Hm & _ & _ & Hp & Hprep).
  destruct (prepareChallenge_created H _ _ Hprep) as (files & _ & ->).
  exists meta, parsed. repeat split; assumption.
Qed.

Lemma created_block_fields_witness :
  exists meta parsed,
    resolveMeta (Sample.repo (Js.VBool false)) (f_path Sample.leaf) None
    = Js.Ok meta
    /\ runParseCall (Sample.repo (Js.VBool false))
         (parseCall (Sample.repo (Js.VBool false))
            "/repo/curriculum/./challenges" "english" (f_path Sample.leaf))
       = Js.Ok parsed
    /\ ch_block Sample.created
       = Js.VStr (dasherize (Sample.repo (Js.VBool false)) (meta_name meta))
    /\ ch_superBlock Sample.created
       = Js.VStr (blockNameify (Sample.repo (Js.VBool false))
                    (Js.VStr (sb_name (superBlockInfoFromPath (f_path Sample.leaf)))))
    /\ ch_order Sample.created = meta_order meta
    /\ ch_superOrder Sample.created = meta_superOrder meta
    /\ ch_template Sample.created = meta_template meta
    /\ ch_time Sample.created = meta_time meta
    /\ ch_name Sample.created
       = Js.VStr (nameify (Sample.repo (Js.VBool false)) (ch_title parsed))
    /\ ch_title Sample.created = ch_title parsed
    /\ ch_challengeType Sample.created = ch_challengeType parsed
    /\ ch_id Sample.created = ch_id parsed
    /\ ch_originalTitle Sample.created = Js.VUndefined.
Proof.
  apply (created_block_fields (Sample.repo (Js.VBool false))
           "/repo/curriculum/./challenges" "english").
  vm_compute. reflexivity.
Defined.

(** X9: how a created challenge combines its own settings with the block's.
    It is private when the file or the block says so; its [required] list
    is the block's followed by the file's own (none when the file has none);
    its help category is the file's own when it has one and the category of
    the dasherized block name otherwise. *)
Theorem created_merges_block_settings (H : Host)
    (basePath lang filePath : string) (maybeMeta : option Meta)
    (created : Challenge) :
  createChallenge H basePath lang filePath maybeMeta = Js.Ok created ->
  exists meta parsed own,
    resolveMeta H filePath maybeMeta = Js.Ok meta
    /\ runParseCall H (parseCall H basePath lang filePath) = Js.Ok parsed
    /\ Js.truthy (ch_isPrivate created)
       = Js.truthy (ch_isPrivate parsed) || Js.truthy (meta_isPrivate meta)
    /\ ch_required created
       = Js.VArr (default [] (meta_required meta) ++ own)%list
    /\ (Js.truthy (ch_required parsed) = false -> own = [])
    /\ (forall l, ch_required parsed = Js.VArr l -> own = l)
    /\ (Js.truthy (ch_helpCategory parsed) = true ->
        ch_helpCategory created = ch_helpCategory parsed)
    /\ (Js.truthy (ch_helpCategory parsed) = false ->
        ch_helpCategory created
        = helpCategoryMap H (dasherize H (meta_name meta))).
Proof.
  intros Hc.
  destruct (createChallenge_created H _ _ _ _ _ Hc)
    as (meta & parsed & Hm & _ & _ & Hp & Hprep).
  destruct (prepareChallenge_created H _ _ Hprep) as (files & _ & ->).
  cbn [ch_isPrivate ch_required ch_helpCategory decorate].
  exists meta, parsed,
    (match Js.or (ch_required parsed) (Js.VArr []) with
     | Js.VArr l => l
     | v => [v]
     end).
  split; [exact Hm|]. split; [exact Hp|]. split; [|split; [|split; [|split; [|split]]]].
  - unfold Js.or.
    destruct (Js.truthy (ch_isPrivate parsed)) eqn:E; [now rewrite E | reflexivity].
  - unfold Js.concat. now destruct (Js.or _ _).
  - unfold Js.or. now intros ->.
  - intros l ->. reflexivity.
  - unfold Js.or. now intros ->.
  - unfold Js.or. now intros ->.
Qed.

Lemma created_merges_block_settings_witness :
  exists meta parsed own,
    resolveMeta (Sample.repo (Js.VBool false)) (f_path Sample.leaf) None
    = Js.Ok meta
    /\ runParseCall (Sample.repo (Js.VBool false))
         (parseCall (Sample.repo (Js.VBool false))
            "/repo/curriculum/./challenges" "english" (f_path Sample.leaf))
       = Js.Ok parsed
    /\ Js.truthy (ch_isPrivate Sample.created)
       = Js.truthy (ch_isPrivate parsed) || Js.truthy (meta_isPrivate meta)
    /\ ch_required Sample.created
       = Js.VArr (default [] (meta_required meta) ++ own)%list
    /\ (Js.truthy (ch_required parsed) = false -> own = [])
    /\ (forall l, ch_required parsed = Js.VArr l -> own = l)
    /\ (Js.truthy (ch_helpCategory parsed) = true ->
        ch_helpCategory Sample.created = ch_helpCategory parsed)
    /\ (Js.truthy (ch_helpCategory parsed) = false ->
        ch_helpCategory Sample.created
        = helpCategoryMap (Sample.repo (Js.VBool false))
            (dasherize (Sample.repo (Js.VBool false)) (meta_name meta))).
Proof.
  apply (created_merges_block_settings (Sample.repo (Js.VBool false))
           "/repo/curriculum/./challenges" "english").
  vm_compute. reflexivity.
Defined.

(** ** Which file [createChallenge] reads *)

(** X10: for English, [createChallenge] neither looks for an English
    counterpart nor asks whether the certification is audited: with English
    among the supported languages, it is the metadata, then [parseMD] on the
    English path, then the decoration and preparation of what was parsed. *)
Theorem english_parsed_directly (H : Host) (basePath filePath : string)
    (maybeMeta : option Meta) :
  Js.includes "english" (supportedLangs H) = true ->
  createChallenge H basePath "english" filePath maybeMeta
  = (do meta <- resolveMeta H filePath maybeMeta;
     do challenge <- parseMD H (getFullPath H basePath filePath "english");
     prepareChallenge H (decorate H "english" filePath meta challenge)).
Proof.
  intros Hinc. unfold createChallenge, parseCall.
  rewrite Hinc, isCert_false. reflexivity.
Qed.

Lemma english_parsed_directly_witness :
  createChallenge Sample.noEnglish "/repo/curriculum/./challenges" "english"
    (f_path Sample.leaf) None
  = (do meta <- resolveMeta Sample.noEnglish (f_path Sample.leaf) None;
     do challenge <-
       parseMD Sample.noEnglish
         (getFullPath Sample.noEnglish "/repo/curriculum/./challenges"
            (f_path Sample.leaf) "english");
     prepareChallenge Sample.noEnglish
       (decorate Sample.noEnglish "english" (f_path Sample.leaf) meta challenge)).
Proof.
  exact (english_parsed_directly Sample.noEnglish
           "/repo/curriculum/./challenges" (f_path Sample.leaf) None eq_refl).
Defined.

(** X11: for a supported language other than English whose English file
    exists, the translated file is read only when the certification is
    audited: otherwise the challenge is the English file parsed with
    [parseMD], as for English; when it is audited the challenge comes from
    [parseTranslation] on the English and the translated path, with the
    comment dictionary and [parseMD]. *)
Theorem translation_only_when_audited (H : Host)
    (basePath lang filePath : string) (maybeMeta : option Meta) (meta : Meta) :
  resolveMeta H filePath maybeMeta = Js.Ok meta ->
  Js.includes lang (supportedLangs H) = true ->
  lang <> "english" ->
  hasEnglishSource H basePath filePath = true ->
  (isAuditedCert H lang (sb_name (superBlockInfoFromPath filePath)) = false ->
   createChallenge H basePath lang filePath maybeMeta
   = (do challenge <- parseMD H (getFullPath H basePath filePath "english");
      prepareChallenge H (decorate H lang filePath meta challenge)))
  /\ (isAuditedCert H lang (sb_name (superBlockInfoFromPath filePath)) = true ->
      createChallenge H basePath lang filePath maybeMeta
      = (do challenge <-
           parseTranslation H (getFullPath H basePath filePath "english")
             (getFullPath H basePath filePath lang) (COMMENT_TRANSLATIONS H)
             lang (parseMD H);
         prepareChallenge H (decorate H lang filePath meta challenge))).
Proof.
  intros Hm Hinc Hne Heng. apply String.eqb_neq in Hne.
  unfold createChallenge, parseCall.
  rewrite Hm, Hinc, Hne, Heng, isCert_false. cbn [Js.bind negb andb orb].
  split; intros ->; reflexivity.
Qed.

Lemma translation_only_when_audited_witness :
  createChallenge (Sample.repo (Js.VBool false)) "/repo/curriculum/./challenges"
    "espanol" (f_path Sample.leaf) None
  = (do challenge <-
       parseTranslation (Sample.repo (Js.VBool false))
         (getFullPath (Sample.repo (Js.VBool false))
            "/repo/curriculum/./challenges" (f_path Sample.leaf) "english")
         (getFullPath (Sample.repo (Js.VBool false))
            "/repo/curriculum/./challenges" (f_path Sample.leaf) "espanol")
         (COMMENT_TRANSLATIONS (Sample.repo (Js.VBool false))) "espanol"
         (parseMD (Sample.repo (Js.VBool false)));
     prepareChallenge (Sample.repo (Js.VBool false))
       (decorate (Sample.repo (Js.VBool false)) "espanol" (f_path Sample.leaf)
          (Sample.meta (Js.VBool false)) challenge)).
Proof.
  exact (proj2 (translation_only_when_audited (Sample.repo (Js.VBool false))
                  "/repo/curriculum/./challenges" "espanol"
                  (f_path Sample.leaf) None (Sample.meta (Js.VBool false))
                  eq_refl eq_refl ltac:(discriminate) eq_refl) eq_refl).
Defined.

(** X12: the dashed name of a created challenge is the dasherized title of
    what was parsed for English, and the dasherized [originalTitle] of what
    was parsed for any other language, also when the English file stood in
    for the translation. *)
Theorem dashedName_source (H : Host) (basePath lang filePath : string)
    (maybeMeta : option Meta) (created : Challenge) :
  createChallenge H basePath lang filePath maybeMeta = Js.Ok created ->
  exists parsed,
    runParseCall H (parseCall H basePath lang filePath) = Js.Ok parsed
    /\ (lang = "english" ->
        ch_dashedName created = Js.VStr (dasherize H (ch_title parsed)))
    /\ (lang <> "english" ->
        ch_dashedName created = Js.VStr (dasherize H (ch_originalTitle parsed))).
Proof.
  intros Hc.
  destruct (createChallenge_created H _ _ _ _ _ Hc)
    as (meta & parsed & _ & _ & _ & Hp & Hprep).
  destruct (prepareChallenge_created H _ _ Hprep) as (files & _ & ->).
  exists parsed. split; [exact Hp|]. cbn [ch_dashedName decorate].
  split; [intros -> | intros Hne%String.eqb_neq; rewrite Hne]; reflexivity.
Qed.

Lemma dashedName_source_witness :
  exists parsed,
    runParseCall (Sample.repo (Js.VBool false))
      (parseCall (Sample.repo (Js.VBool false))
         "/repo/curriculum/./challenges" "english" (f_path Sample.leaf))
    = Js.Ok parsed
    /\ ("english" = "english" ->
        ch_dashedName Sample.created
        = Js.VStr (dasherize (Sample.repo (Js.VBool false)) (ch_title parsed)))
    /\ ("english" <> "english" ->
        ch_dashedName Sample.created
        = Js.VStr (dasherize (Sample.repo (Js.VBool false))
                     (ch_originalTitle parsed))).
Proof.
  apply (dashedName_source (Sample.repo (Js.VBool false))
           "/repo/curriculum/./challenges" "english" (f_path Sample.leaf) None).
  vm_compute. reflexivity.
Defined.

(** X13: the order of the checks.  When the metadata cannot be loaded,
    that error is the outcome whatever the language; with the metadata at
    hand, a language outside the supported ones is refused before any file
    is looked for or parsed, with a message that names the language and the
    file. *)
Theorem checks_in_order (H : Host) (basePath lang filePath : string)
    (maybeMeta : option Meta) :
  (forall e,
     resolveMeta H filePath maybeMeta = Js.Err e ->
     createChallenge H basePath lang filePath maybeMeta = Js.Err e)
  /\ (forall meta,
        resolveMeta H filePath maybeMeta = Js.Ok meta ->
        Js.includes lang (supportedLangs H) = false ->
        createChallenge H basePath lang filePath maybeMeta
        = Js.Err (Js.Error (notAccepted lang filePath))
        /\ mentions (notAccepted lang filePath) lang = true
        /\ mentions (notAccepted lang filePath) filePath = true).
Proof.
  unfold createChallenge. split.
  - intros e ->. reflexivity.
  - intros meta -> ->. split; [reflexivity|].
    unfold notAccepted. split; mentioned.
Qed.

Lemma checks_in_order_witness :
  createChallenge Sample.noEnglish "/repo/curriculum/./challenges" "klingon"
    (f_path Sample.leaf) None
  = Js.Err (Js.Error (notAccepted "klingon" (f_path Sample.leaf))).
Proof.
  exact (proj1 (proj2 (checks_in_order Sample.noEnglish
                         "/repo/curriculum/./challenges" "klingon"
                         (f_path Sample.leaf) None)
                  (Sample.meta (Js.VBool false)) eq_refl eq_refl)).
Defined.

(** X14: a challenge is created only for a supported language, and for a
    language other than English only when the English file exists. *)
Theorem created_passed_checks (H : Host) (basePath lang filePath : string)
    (maybeMeta : option Meta) (created : Challenge) :
  createChallenge H basePath lang filePath maybeMeta = Js.Ok created ->
  Js.includes lang (supportedLangs H) = true
  /\ (lang = "english" \/ hasEnglishSource H basePath filePath = true).
Proof.
  intros Hc.
  destruct (createChallenge_created H _ _ _ _ _ Hc)
    as (meta & parsed & _ & Hinc & Heng & _).
  split; assumption.
Qed.

Lemma created_passed_checks_witness :
  Js.includes "espanol" (supportedLangs (Sample.repo (Js.VBool false))) = true
  /\ ("espanol" = "english"
      \/ hasEnglishSource (Sample.repo (Js.VBool false))
           "/repo/curriculum/./challenges" (f_path Sample.leaf) = true).
Proof.
  destruct (createChallenge (Sample.repo (Js.VBool false))
              "/repo/curriculum/./challenges" "espanol" (f_path Sample.leaf) None)
    as [created|e] eqn:Hc.
  - exact (created_passed_checks _ _ _ _ _ _ Hc).
  - vm_compute in Hc. discriminate Hc.
Defined.

(** ** Steps of [buildCurriculum] *)





(** X18: how a leaf can fail.  When its superblock was never registered the
    process exits, after logging a line that names the superblock; when
    [createChallenge] throws for a file of a registered block, the call
    throws that same error; and a file named [meta.json] or [.DS_Store] is
    passed over in any curriculum, missing superblock included. *)
Theorem leaf_failures (H : Host) (leaf : File) (curriculum : Curriculum)
    (lang : string) :
  f_isDirectory leaf = false ->
  (f_name leaf = "meta.json" \/ f_name leaf = ".DS_Store" ->
   buildCurriculum H leaf curriculum lang = Resolved curriculum)
  /\ (f_name leaf <> "meta.json" -> f_name leaf <> ".DS_Store" ->
      curriculum !! sb_name (superBlockInfoFromPath (f_path leaf)) = None ->
      buildCurriculum H leaf curriculum lang
      = Exited ("failed to create superBlock "
                +:+ sb_name (superBlockInfoFromPath (f_path leaf)))
      /\ mentions ("failed to create superBlock "
                   +:+ sb_name (superBlockInfoFromPath (f_path leaf)))
                  (sb_name (superBlockInfoFromPath (f_path leaf))) = true)
  /\ (forall sb challengeBlock e,
        f_name leaf <> "meta.json" -> f_name leaf <> ".DS_Store" ->
        curriculum !! sb_name (superBlockInfoFromPath (f_path leaf)) = Some sb ->
        su_blocks sb !! tpl (getBlockNameFromPath (f_path leaf))
        = Some challengeBlock ->
        createChallenge H (challengesDir H) lang (f_path leaf)
          (Some (bi_meta challengeBlock)) = Js.Err e ->
        buildCurriculum H leaf curriculum lang = Rejected e).
Proof.
  intros Hf. unfold buildCurriculum. rewrite Hf, !andb_false_r.
  split; [|split].
  - intros [-> | ->]; reflexivity.
  - intros Hm%String.eqb_neq Hds%String.eqb_neq Hsb. rewrite Hm, Hds, Hsb.
    split; [reflexivity | mentioned].
  - intros sb cb e Hm%String.eqb_neq Hds%String.eqb_neq Hsb Hcb Hc.
    now rewrite Hm, Hds, Hsb, Hcb, Hc.
Qed.

Lemma leaf_failures_witness :
  buildCurriculum (Sample.repo (Js.VBool false)) Sample.leaf ∅ "english"
  = Exited ("failed to create superBlock "
            +:+ sb_name (superBlockInfoFromPath (f_path Sample.leaf))).
Proof.
  exact (proj1 (proj1 (proj2 (leaf_failures (Sample.repo (Js.VBool false))
                                Sample.leaf ∅ "english" eq_refl))
                  ltac:(discriminate) ltac:(discriminate) eq_refl)).
Defined.

(** ** What a whole walk keeps true *)

Section Walk.

Variable H : Host.
Variable lang : string.

(** The four ways a call can resolve. *)
Lemma buildCurriculum_resolved file curriculum curriculum' :
  buildCurriculum H file curriculum lang = Resolved curriculum' ->
  curriculum' = curriculum
  \/ curriculum'
     = <[sb_name (superBlockInfo (f_name file)) :=
           {| su_superBlock := sb_name (superBlockInfo (f_name file));
              su_order := sb_order (superBlockInfo (f_name file));
              su_blocks := ∅ |}]> curriculum
  \/ (exists sb blockMeta flag,
        curriculum !! sb_name (superBlockInfoFromPath (f_path file)) = Some sb
        /\ meta_isUpcomingChange blockMeta = Js.VBool flag
        /\ (flag = false \/ SHOW_UPCOMING_CHANGES H = Some "true")
        /\ curriculum'
           = <[sb_name (superBlockInfoFromPath (f_path file)) :=
                 {| su_superBlock := su_superBlock sb;
                    su_order := su_order sb;
                    su_blocks :=
                      <[f_name file :=
                          {| bi_meta := blockMeta; bi_challenges := [] |}]>
                        (su_blocks sb) |}]> curriculum)
  \/ (exists sb challengeBlock challenge,
        curriculum !! sb_name (superBlockInfoFromPath (f_path file)) = Some sb
        /\ su_blocks sb !! tpl (getBlockNameFromPath (f_path file))
           = Some challengeBlock
        /\ createChallenge H (challengesDir H) lang (f_path file)
             (Some (bi_meta challengeBlock)) = Js.Ok challenge
        /\ curriculum'
           = <[sb_name (superBlockInfoFromPath (f_path file)) :=
                 {| su_superBlock := su_superBlock sb;
                    su_order := su_order sb;
                    su_blocks :=
                      <[tpl (getBlockNameFromPath (f_path file)) :=
                          {| bi_meta := bi_meta challengeBlock;
                             bi_challenges :=
                               (bi_challenges challengeBlock ++ [challenge])%list |}]>
                        (su_blocks sb) |}]> curriculum).
Proof.
  unfold buildCurriculum.
  destruct ((f_depth file =? 1) && f_isDirectory file).
  { intros [= <-]. right. now left. }
  destruct ((f_depth file =? 2) && f_isDirectory file).
  { destruct (requireMeta H _) as [blockMeta|]; [|discriminate].
    destruct (meta_isUpcomingChange blockMeta) as [| |flag| | | |] eqn:Hflag;
      try discriminate.
    cbn [Js.isBoolean negb Js.truthy].
    destruct (negb flag || showUpcomingChanges H) eqn:Hon;
      [|intros [= <-]; now left].
    destruct (curriculum !! sb_name (superBlockInfoFromPath (f_path file)))
      as [sb|] eqn:Hsb; [|discriminate].
    intros [= <-]. right. right. left. exists sb, blockMeta, flag.
    repeat split; try assumption.
    apply orb_true_iff in Hon as [Hoff | Hshow].
    - left. now destruct flag.
    - right. unfold showUpcomingChanges in Hshow.
      destruct (SHOW_UPCOMING_CHANGES H) as [v|]; [|discriminate].
      apply String.eqb_eq in Hshow. now subst. }
  destruct (_ || _); [intros [= <-]; now left|].
  destruct (curriculum !! sb_name (superBlockInfoFromPath (f_path file)))
    as [sb|] eqn:Hsb; [|discriminate].
  destruct (su_blocks sb !! tpl (getBlockNameFromPath (f_path file)))
    as [cb|] eqn:Hcb.
  2: { destruct (Js.inherited _); [|intros [= <-]; now left].
       destruct (createChallenge _ _ _ _ _); discriminate. }
  destruct (createChallenge _ _ _ _ _) as [challenge|] eqn:Hc; [|discriminate].
  intros [= <-]. right. right. right. exists sb, cb, challenge.
  repeat split; assumption.
Qed.

(** A property of the entries handled so far and the curriculum, kept by
    every call that resolves, holds of the whole walk. *)
Lemma buildAll_keeps (I : list File -> Curriculum -> Prop) files :
  (forall handled file curriculum curriculum',
     I handled curriculum ->
     buildCurriculum H file curriculum lang = Resolved curriculum' ->
     I (handled ++ [file])%list curriculum') ->
  forall handled curriculum curriculum',
    I handled curriculum ->
    buildAll H lang files curriculum = Resolved curriculum' ->
    I (handled ++ files)%list curriculum'.
Proof.
  intros Hstep. induction files as [|file files IH];
    intros handled curriculum curriculum' Hi; simpl.
  - intros [= <-]. now rewrite app_nil_r.
  - destruct (buildCurriculum H file curriculum lang) as [c1| |] eqn:Hrun;
      try discriminate.
    intros Hrest.
    replace (handled ++ file :: files)%list
      with ((handled ++ [file]) ++ files)%list by now rewrite <- app_assoc.
    apply (IH _ c1); [|exact Hrest]. now apply (Hstep _ _ curriculum).
Qed.

Lemma filedByName_step file curriculum curriculum' :
  filedByName curriculum ->
  buildCurriculum H file curriculum lang = Resolved curriculum' ->
  filedByName curriculum'.
Proof.
  intros Hinv Hrun name sb.
  destruct (buildCurriculum_resolved _ _ _ Hrun)
    as [-> | [-> | [(sb0 & m & flag & Hsb & _ & _ & ->)
                   | (sb0 & cb & ch & Hsb & _ & _ & ->)]]].
  - apply Hinv.
  - rewrite lookup_insert. case_decide; [now intros [= <-] | apply Hinv].
  - rewrite lookup_insert. case_decide; [|apply Hinv].
    intros [= <-]. cbn. subst name. now apply Hinv.
  - rewrite lookup_insert. case_decide; [|apply Hinv].
    intros [= <-]. cbn. subst name. now apply Hinv.
Qed.

Lemma releasedOnly_step file curriculum curriculum' :
  releasedOnly H curriculum ->
  buildCurriculum H file curriculum lang = Resolved curriculum' ->
  releasedOnly H curriculum'.
Proof.
  intros Hinv Hrun name sb block info.
  destruct (buildCurriculum_resolved _ _ _ Hrun)
    as [-> | [-> | [(sb0 & m & flag & Hsb & Hflag & Hon & ->)
                   | (sb0 & cb & ch & Hsb & Hcb & _ & ->)]]].
  - apply Hinv.
  - rewrite lookup_insert. case_decide; [|apply Hinv].
    intros [= <-]. cbn. now rewrite lookup_empty.
  - rewrite lookup_insert. case_decide; [|apply Hinv].
    intros [= <-]. cbn. rewrite lookup_insert. case_decide.
    + intros [= <-]. cbn. eauto.
    + now apply (Hinv _ _ _ _ Hsb).
  - rewrite lookup_insert. case_decide; [|apply Hinv].
    intros [= <-]. cbn. rewrite lookup_insert. case_decide.
    + intros [= <-]. cbn. now apply (Hinv _ _ _ _ Hsb Hcb).
    + now apply (Hinv _ _ _ _ Hsb).
Qed.

Lemma placed_more handled file curriculum :
  placed H lang handled curriculum ->
  placed H lang (handled ++ [file])%list curriculum.
Proof.
  intros Hinv name sb block info challenge Hsb Hb Hin.
  destruct (Hinv _ _ _ _ _ Hsb Hb Hin) as (f & Hf & ?).
  exists f. split; [|assumption]. apply in_app_iff. now left.
Qed.

Lemma placed_step handled file curriculum curriculum' :
  placed H lang handled curriculum ->
  buildCurriculum H file curriculum lang = Resolved curriculum' ->
  placed H lang (handled ++ [file])%list curriculum'.
Proof.
  intros Hinv Hrun.
  pose proof (placed_more handled file curriculum Hinv) as Hmore.
  intros name sb block info challenge.
  destruct (buildCurriculum_resolved _ _ _ Hrun)
    as [-> | [-> | [(sb0 & m & flag & Hsb & _ & _ & ->)
                   | (sb0 & cb & ch & Hsb & Hcb & Hc & ->)]]].
  - apply Hmore.
  - rewrite lookup_insert. case_decide; [|apply Hmore].
    intros [= <-]. cbn. now rewrite lookup_empty.
  - rewrite lookup_insert. case_decide; [|apply Hmore].
    intros [= <-]. cbn. rewrite lookup_insert. case_decide.
    + intros [= <-]. cbn. intros [].
    + subst name. now apply (Hmore _ _ _ _ _ Hsb).
  - rewrite lookup_insert. case_decide; [|apply Hmore].
    intros [= <-]. cbn. rewrite lookup_insert. case_decide.
    + intros [= <-]. cbn. intros [Hin | [<- | []]]%in_app_iff.
      * subst name block. now apply (Hmore _ _ _ _ _ Hsb Hcb).
      * exists file. repeat split; try assumption.
        apply in_app_iff. right. now left.
    + subst name. now apply (Hmore _ _ _ _ _ Hsb).
Qed.

End Walk.

(** X19: in the curriculum a walk resolves to, whatever entries the walk
    reported, every superblock is filed under its own name and every block
    has a boolean [isUpcomingChange] that is false unless the toggle is set
    to ['true']; the same holds of what [getChallengesForLang] resolves
    to. *)
Theorem walk_released_only (H : Host) (lang : string) (files : list File)
    (curriculum : Curriculum) :
  buildAll H lang files ∅ = Resolved curriculum ->
  filedByName curriculum /\ releasedOnly H curriculum.
Proof.
  intros Hrun.
  apply (buildAll_keeps H lang
           (fun _ c => filedByName c /\ releasedOnly H c) files)
    with (handled := []) (curriculum := ∅); [| |exact Hrun].
  - intros handled file c c' [Hf Hr] Hstep. split.
    + eapply filedByName_step; eassumption.
    + eapply releasedOnly_step; eassumption.
  - split.
    + intros name sb. now rewrite lookup_empty.
    + intros name sb block info. now rewrite lookup_empty.
Qed.

Lemma walk_released_only_witness :
  filedByName SampleWalk.walked
  /\ releasedOnly (Sample.repo (Js.VBool false)) SampleWalk.walked.
Proof.
  apply (walk_released_only (Sample.repo (Js.VBool false)) "english"
           SampleWalk.entries).
  vm_compute. reflexivity.
Defined.

(** X20: every challenge in the curriculum a walk resolves to was created
    by [createChallenge] from an entry of the walk, with the metadata of
    the block it is in, and the path of that entry names that block and
    that superblock: no challenge ends up in another block than its
    own. *)
Theorem walk_places_challenges (H : Host) (lang : string) (files : list File)
    (curriculum : Curriculum) :
  buildAll H lang files ∅ = Resolved curriculum ->
  placed H lang files curriculum.
Proof.
  intros Hrun.
  apply (buildAll_keeps H lang (placed H lang) files)
    with (handled := []) (curriculum := ∅); [| |exact Hrun].
  - intros handled file c c'. apply placed_step.
  - intros name sb block info challenge. now rewrite lookup_empty.
Qed.

Lemma walk_places_challenges_witness :
  placed (Sample.repo (Js.VBool false)) "english" SampleWalk.entries
    SampleWalk.walked.
Proof.
  apply (walk_places_challenges (Sample.repo (Js.VBool false)) "english"
           SampleWalk.entries).
  vm_compute. reflexivity.
Defined.

(** ** The completion counter *)

Section Counter.

(** Along a possible trace the counter is one (until the walk ends) plus
    the entries not yet fulfilled, and the promise has been resolved
    exactly when the walk has ended with nothing outstanding. *)
Lemma counter_invariant trace : forall ended outstanding st,
  possibleFrom ended outstanding trace = true ->
  running st = (if ended then 0 else 1) + Z.of_nat outstanding ->
  resolves st
  = (if ended && (outstanding =? 0)%nat then 1 else 0)%nat ->
  exists (ended' : bool) (outstanding' : nat),
    running (fold_left handle trace st)
    = (if ended' then 0 else 1) + Z.of_nat outstanding'
    /\ resolves (fold_left handle trace st)
       = (if ended' && (outstanding' =? 0)%nat then 1 else 0)%nat
    /\ ended' = ended || existsb isEnd trace
    /\ (outstanding' + length (List.filter isFulfilled trace)
        = outstanding + length (List.filter isData trace))%nat.
Proof.
  induction trace as [|e trace IH]; intros ended outstanding st Hp Hr Hres.
  - exists ended, outstanding. simpl. rewrite orb_false_r. repeat split; auto; lia.
  - destruct e; cbn [possibleFrom] in Hp.
    + apply andb_prop in Hp as [He Hp]. destruct ended; [discriminate|].
      destruct (IH false (S outstanding)
                  {| running := running st + 1; resolves := resolves st |} Hp)
        as (e' & o' & H1 & H2 & H3 & H4).
      * cbn [running]. lia.
      * cbn [resolves]. now rewrite Hres.
      * exists e', o'. cbn [fold_left handle existsb isEnd List.filter isData
                              isFulfilled length orb].
        repeat split; try assumption. cbn [length]. lia.
    + destruct outstanding as [|n]; [discriminate|].
      destruct (IH ended n (done st) Hp) as (e' & o' & H1 & H2 & H3 & H4).
      * unfold done. cbn [running]. lia.
      * unfold done. cbn [resolves running]. rewrite Hres, Hr.
        cbn [Nat.eqb andb]. rewrite andb_false_r.
        destruct ended, n; cbn; try reflexivity;
          match goal with |- context [?z =? 0] =>
            destruct (Z.eqb_spec z 0); [lia | reflexivity] end.
      * exists e', o'. cbn [fold_left handle existsb isEnd List.filter isData
                              isFulfilled length orb].
        repeat split; try assumption. cbn [length]. lia.
    + apply andb_prop in Hp as [He Hp]. destruct ended; [discriminate|].
      destruct (IH true outstanding (done st) Hp) as (e' & o' & H1 & H2 & H3 & H4).
      * unfold done. cbn [running]. lia.
      * unfold done. cbn [resolves running]. rewrite Hres, Hr.
        cbn [andb].
        destruct outstanding; cbn; try reflexivity;
          match goal with |- context [?z =? 0] =>
            destruct (Z.eqb_spec z 0); [lia | reflexivity] end.
      * exists e', o'. cbn [fold_left handle existsb isEnd List.filter isData
                              isFulfilled length orb].
        repeat split; try assumption.
Qed.

End Counter.

(** X21: the promise of [getChallengesForLang] is resolved at most once,
    and exactly when the walk has ended and every entry that arrived has
    had its [buildCurriculum] fulfilled; until then the counter stays
    above 0, so an entry whose [buildCurriculum] throws, and never calls
    [done], keeps the promise from resolving. *)
Theorem resolves_when_all_settled (trace : list WalkEvent) :
  possible trace = true ->
  resolves (afterEvents trace) = (if allSettled trace then 1 else 0)%nat
  /\ (allSettled trace = false -> 0 < running (afterEvents trace))
  /\ (allSettled trace = true -> running (afterEvents trace) = 0).
Proof.
  intros Hp. unfold afterEvents, allSettled.
  destruct (counter_invariant trace false 0 counterStart Hp eq_refl eq_refl)
    as (e' & o' & Hr & Hres & He & Ho).
  cbn [orb] in He. rewrite <- He.
  assert ((length (List.filter isData trace)
           =? length (List.filter isFulfilled trace))%nat = (o' =? 0)%nat) as ->.
  { destruct (Nat.eqb_spec o' 0) as [->|Hne].
    - apply Nat.eqb_eq. lia.
    - apply Nat.eqb_neq. lia. }
  split; [exact Hres|]. rewrite Hr.
  destruct e'; destruct (Nat.eqb_spec o' 0) as [->|?]; cbn [andb];
    split; intros; try discriminate; lia.
Qed.

Lemma resolves_when_all_settled_witness :
  resolves (afterEvents [OnData; OnData; OnFulfilled; OnEnd; OnFulfilled]) = 1%nat
  /\ resolves (afterEvents [OnData; OnData; OnFulfilled; OnEnd]) = 0%nat.
Proof.
  split.
  - exact (proj1 (resolves_when_all_settled
                    [OnData; OnData; OnFulfilled; OnEnd; OnFulfilled] eq_refl)).
  - exact (proj1 (resolves_when_all_settled
                    [OnData; OnData; OnFulfilled; OnEnd] eq_refl)).
Defined.

(** ** What the comment map holds *)

Section CommentMapContents.

Variable d : Dictionaries.
Variable dictOf : string -> list Comment.
Hypothesis loaded :
  forall lang, In lang (dictionaryLanguages d) ->
               requireComments d lang = Js.Ok (dictOf lang).

(** A map that [createCommentMap] returns, taken apart. *)
Lemma createCommentMap_parts m :
  createCommentMap d = Js.Ok m ->
  exists dicts translated,
    (forall lang, In lang (Js.dictKeys dicts) <-> In lang (dictionaryLanguages d))
    /\ (forall lang, In lang (Js.dictKeys dicts) ->
                     Js.dictGet lang dicts = Some (dictOf lang))
    /\ Js.reduceM
         (fun (acc : CommentMap) c =>
            do entry <- getTranslationEntry dicts (cm_id c) (cm_text c);
            Js.Ok (<[cm_text c := entry]> acc))
         (COMMENTS_TO_TRANSLATE d) ∅ = Js.Ok translated
    /\ m = fold_left
             (fun (acc : CommentMap) c =>
                <[cm_text c := englishEntry (dictionaryLanguages d) (cm_text c)]> acc)
             (COMMENTS_TO_NOT_TRANSLATE d) ∅ ∪ translated.
Proof.
  unfold createCommentMap. cbv zeta.
  destruct (dictionaries_loaded d dictOf (dictionaryLanguages d) [] loaded)
    as (dicts & -> & Hkeys & Hget & _).
  cbn [Js.bind].
  destruct (Js.reduceM _ (COMMENTS_TO_TRANSLATE d) ∅) as [translated|] eqn:Htm;
    [|discriminate].
  cbn [Js.bind]. intros [= <-]. exists dicts, translated.
  assert (forall lang, In lang (Js.dictKeys dicts) <-> In lang (dictionaryLanguages d))
    as Hk by (intros lang; rewrite Hkeys; simpl; tauto).
  repeat split; try apply Hk; try assumption.
  intros lang Hl. apply Hget, Hk, Hl.
Qed.

Variable dicts : Js.Dict (list Comment).
Hypothesis dicts_get :
  forall lang, In lang (Js.dictKeys dicts) ->
               Js.dictGet lang dicts = Some (dictOf lang).

Lemma translationEntry_lookup engId text keys :
  forall acc entry : gmap string string,
  (forall lang, In lang keys -> In lang (Js.dictKeys dicts)) ->
  Js.reduceM
    (fun acc lang =>
       match Js.dictGet lang dicts with
       | None => Js.Err Js.TypeError
       | Some dict =>
           match find (fun c => String.eqb engId (cm_id c)) dict with
           | Some entry => Js.Ok (<[lang := cm_text entry]> acc)
           | None => Js.Err (Js.Error (missingTranslation text engId))
           end
       end) keys acc = Js.Ok entry ->
  forall lang,
    (In lang keys
     /\ exists translation,
          find (fun c => String.eqb engId (cm_id c)) (dictOf lang) = Some translation
          /\ entry !! lang = Some (cm_text translation))
    \/ (~ In lang keys /\ entry !! lang = acc !! lang).
Proof.
  induction keys as [|key keys IH]; intros acc entry Hsub; cbn [Js.reduceM].
  - intros [= <-] lang. right. split; [intros [] | reflexivity].
  - rewrite (dicts_get key) by (apply Hsub; now left).
    destruct (find _ (dictOf key)) as [translation|] eqn:Hfind; [|discriminate].
    cbn [Js.bind]. intros Hrest lang.
    destruct (IH _ _ (fun l Hl => Hsub l (or_intror Hl)) Hrest lang)
      as [[Hin Htr] | [Hnin Hacc]].
    + left. split; [now right | exact Htr].
    + destruct (String.string_dec key lang) as [->|Hne].
      * left. split; [now left|]. exists translation. split; [exact Hfind|].
        rewrite Hacc. apply lookup_insert_eq.
      * right. split; [intros [?|?]; congruence|].
        rewrite Hacc. now apply lookup_insert_ne.
Qed.

Lemma translated_lookup comments : forall (acc translated : CommentMap),
  Js.reduceM
    (fun (acc : CommentMap) c =>
       do entry <- getTranslationEntry dicts (cm_id c) (cm_text c);
       Js.Ok (<[cm_text c := entry]> acc)) comments acc = Js.Ok translated ->
  forall text,
    (exists c entry,
       In c comments /\ cm_text c = text
       /\ getTranslationEntry dicts (cm_id c) (cm_text c) = Js.Ok entry
       /\ translated !! text = Some entry)
    \/ (~ In text (map cm_text comments) /\ translated !! text = acc !! text).
Proof.
  induction comments as [|c comments IH]; intros acc translated; cbn [Js.reduceM].
  - intros [= <-] text. right. split; [intros [] | reflexivity].
  - destruct (getTranslationEntry dicts (cm_id c) (cm_text c)) as [entry|] eqn:He;
      [|discriminate].
    cbn [Js.bind]. intros Hrest text.
    destruct (IH _ _ Hrest text) as [(c' & e' & Hin & ? & ? & ?) | [Hnin Hacc]].
    + left. exists c', e'. repeat split; try assumption. now right.
    + destruct (String.string_dec (cm_text c) text) as [Heq|Hne].
      * left. exists c, entry. repeat split; try assumption; [now left|].
        rewrite Hacc, <- Heq. apply lookup_insert_eq.
      * right. split.
        -- cbn [map]. intros [?|?]; congruence.
        -- rewrite Hacc. now apply lookup_insert_ne.
Qed.

End CommentMapContents.

Section EnglishEntries.

Lemma englishEntry_languages languages text lang :
  englishEntry languages text !! lang
  = if in_dec String.string_dec lang languages then Some text else None.
Proof.
  unfold englishEntry.
  destruct (in_dec String.string_dec lang languages) as [Hin|Hnin].
  - apply englishEntry_lookup. now right.
  - assert (forall acc : gmap string string,
              fold_left (fun acc lang => <[lang := text]> acc) languages acc !! lang
              = acc !! lang) as Hfold.
    { induction languages as [|l ls IH]; intros acc; [reflexivity|].
      cbn [fold_left]. rewrite IH by (intros ?; apply Hnin; now right).
      apply lookup_insert_ne. intros ->. apply Hnin. now left. }
    rewrite Hfold. apply lookup_empty.
Qed.

Lemma untranslatable_absent languages comments : forall (acc : CommentMap) text,
  ~ In text (map cm_text comments) ->
  fold_left
    (fun (acc : CommentMap) c =>
       <[cm_text c := englishEntry languages (cm_text c)]> acc)
    comments acc !! text
  = acc !! text.
Proof.
  induction comments as [|c comments IH]; intros acc text Hnin; [reflexivity|].
  cbn [fold_left]. rewrite IH by (intros ?; apply Hnin; now right).
  apply lookup_insert_ne. intros Heq. apply Hnin. now left.
Qed.

End EnglishEntries.

Example createCommentMap_sample :
  createCommentMap (Sample.dictionaries SampleWalk.espanol)
  = Js.Ok SampleWalk.comments.
Proof. vm_compute. reflexivity. Qed.

Lemma english_no_dictionary d : ~ In "english" (dictionaryLanguages d).
Proof.
  unfold dictionaryLanguages. intros [_ Hne]%filter_In. discriminate Hne.
Qed.

(** X22: the keys of a comment map that [createCommentMap] returns are the
    texts of the comments to translate and of those not to translate, and
    nothing else; every entry has a text for each language that has a
    dictionary and for no other language, so never for English. *)
Theorem commentMap_keys (d : Dictionaries) (dictOf : string -> list Comment)
    (m : CommentMap) :
  (forall lang, In lang (dictionaryLanguages d) ->
                requireComments d lang = Js.Ok (dictOf lang)) ->
  createCommentMap d = Js.Ok m ->
  (forall text,
     is_Some (m !! text)
     <-> In text (getTranslatableComments d)
         \/ In text (map cm_text (COMMENTS_TO_NOT_TRANSLATE d)))
  /\ (forall text (entry : gmap string string) lang,
        m !! text = Some entry ->
        is_Some (entry !! lang) <-> In lang (dictionaryLanguages d))
  /\ (forall text (entry : gmap string string),
        m !! text = Some entry -> entry !! "english" = None).
Proof.
  intros Hload Hm.
  destruct (createCommentMap_parts d dictOf Hload m Hm)
    as (dicts & tm & Hk & Hg & Htm & ->).
  pose proof (translated_lookup dicts _ _ _ Htm) as Htl.
  assert (forall text (entry : gmap string string) lang,
            (fold_left
               (fun (acc : CommentMap) c =>
                  <[cm_text c := englishEntry (dictionaryLanguages d) (cm_text c)]> acc)
               (COMMENTS_TO_NOT_TRANSLATE d) ∅ ∪ tm) !! text = Some entry ->
            is_Some (entry !! lang) <-> In lang (dictionaryLanguages d)) as Hdom.
  { intros text entry lang [Hum | [Hum Ht]]%lookup_union_Some_raw.
    - destruct (in_dec String.string_dec text
                  (map cm_text (COMMENTS_TO_NOT_TRANSLATE d))) as [Hin|Hnin].
      + rewrite (untranslatable_lookup (dictionaryLanguages d)) in Hum
          by now right.
        injection Hum as <-. rewrite englishEntry_languages.
        destruct (in_dec _ _ _); split; intros; eauto; try tauto.
        now destruct H as [? [=]].
      + rewrite untranslatable_absent, lookup_empty in Hum by assumption.
        discriminate.
    - destruct (Htl text) as [(c & e & _ & _ & He & Hlook) | [_ Hlook]].
      2:{ rewrite Hlook, lookup_empty in Ht. discriminate. }
      rewrite Hlook in Ht. injection Ht as <-.
      unfold getTranslationEntry in He.
      destruct (translationEntry_lookup dictOf dicts Hg _ _ _ _ _
                  (fun l Hl => Hl) He lang)
        as [[Hin (tr & _ & ->)] | [Hnin ->]].
      + split; [intros _; now apply Hk | eauto].
      + rewrite lookup_empty. split; [intros [? [=]] | intros Hl].
        exfalso. now apply Hnin, Hk. }
  split; [|split].
  - intros text. unfold getTranslatableComments. split.
    + intros [entry [Hum | [Hum Ht]]%lookup_union_Some_raw].
      * right.
        destruct (in_dec String.string_dec text
                    (map cm_text (COMMENTS_TO_NOT_TRANSLATE d))) as [?|Hnin];
          [assumption|].
        rewrite untranslatable_absent, lookup_empty in Hum by assumption.
        discriminate.
      * left. destruct (Htl text) as [(c & e & Hin & <- & _) | [_ Hlook]].
        -- now apply in_map.
        -- rewrite Hlook, lookup_empty in Ht. discriminate.
    + intros Hin.
      destruct (in_dec String.string_dec text
                  (map cm_text (COMMENTS_TO_NOT_TRANSLATE d))) as [Hnot|Hnot].
      * eexists. apply lookup_union_Some_l, untranslatable_lookup. now right.
      * destruct Hin as [Hin|Hin]; [|contradiction].
        destruct (Htl text) as [(c & e & _ & _ & _ & Hlook) | [Hnin _]];
          [|contradiction].
        exists e. apply lookup_union_Some_raw. right. split; [|exact Hlook].
        rewrite untranslatable_absent by assumption. apply lookup_empty.
  - exact Hdom.
  - intros text entry Hlook.
    destruct (entry !! "english") as [v|] eqn:He; [|reflexivity].
    exfalso. apply (english_no_dictionary d).
    apply (Hdom text entry "english" Hlook). eauto.
Qed.

Lemma commentMap_keys_witness :
  (forall text,
     is_Some (SampleWalk.comments !! text)
     <-> In text (getTranslatableComments (Sample.dictionaries SampleWalk.espanol))
         \/ In text (map cm_text
                       (COMMENTS_TO_NOT_TRANSLATE
                          (Sample.dictionaries SampleWalk.espanol))))
  /\ (forall text (entry : gmap string string) lang,
        SampleWalk.comments !! text = Some entry ->
        is_Some (entry !! lang)
        <-> In lang (dictionaryLanguages (Sample.dictionaries SampleWalk.espanol)))
  /\ (forall text (entry : gmap string string),
        SampleWalk.comments !! text = Some entry -> entry !! "english" = None).
Proof.
  apply (commentMap_keys (Sample.dictionaries SampleWalk.espanol)
           (fun _ => SampleWalk.espanol)).
  - intros lang _. reflexivity.
  - vm_compute. reflexivity.
Defined.

(** X23: in a comment map that [createCommentMap] returns, a comment to
    translate whose text is not also among the comments not to translate,
    and whose text goes with one id only, maps for every language with a
    dictionary to the text of the first entry of that dictionary that has
    the comment's id. *)
Theorem commentMap_translation (d : Dictionaries)
    (dictOf : string -> list Comment) (m : CommentMap) (c : Comment)
    (lang : string) :
  (forall lang, In lang (dictionaryLanguages d) ->
                requireComments d lang = Js.Ok (dictOf lang)) ->
  createCommentMap d = Js.Ok m ->
  In c (COMMENTS_TO_TRANSLATE d) ->
  ~ In (cm_text c) (map cm_text (COMMENTS_TO_NOT_TRANSLATE d)) ->
  (forall c', In c' (COMMENTS_TO_TRANSLATE d) ->
              cm_text c' = cm_text c -> cm_id c' = cm_id c) ->
  In lang (dictionaryLanguages d) ->
  exists (entry : gmap string string) translation,
    m !! cm_text c = Some entry
    /\ find (fun e => String.eqb (cm_id c) (cm_id e)) (dictOf lang)
       = Some translation
    /\ entry !! lang = Some (cm_text translation).
Proof.
  intros Hload Hm Hc Hnot Hid Hlang.
  destruct (createCommentMap_parts d dictOf Hload m Hm)
    as (dicts & tm & Hk & Hg & Htm & ->).
  destruct (translated_lookup dicts _ _ _ Htm (cm_text c))
    as [(c' & entry & Hin & Htext & He & Hlook) | [Hnin _]].
  2:{ exfalso. apply Hnin. now apply in_map. }
  rewrite (Hid c' Hin Htext), Htext in He.
  unfold getTranslationEntry in He.
  destruct (translationEntry_lookup dictOf dicts Hg _ _ _ _ _
              (fun l Hl => Hl) He lang)
    as [[_ (tr & Hfind & Hentry)] | [Hnin _]].
  2:{ exfalso. now apply Hnin, Hk. }
  exists entry, tr. split; [|split; assumption].
  apply lookup_union_Some_raw. right. split; [|exact Hlook].
  rewrite untranslatable_absent by assumption. apply lookup_empty.
Qed.

Lemma commentMap_translation_witness :
  exists (entry : gmap string string) translation,
    SampleWalk.comments !! "// hello" = Some entry
    /\ find (fun e => String.eqb "c1" (cm_id e)) SampleWalk.espanol
       = Some translation
    /\ entry !! "espanol" = Some (cm_text translation).
Proof.
  apply (commentMap_translation (Sample.dictionaries SampleWalk.espanol)
           (fun _ => SampleWalk.espanol) SampleWalk.comments
           {| cm_id := "c1"; cm_text := "// hello" |} "espanol").
  - intros lang _. reflexivity.
  - vm_compute. reflexivity.
  - now left.
  - intros [E | []]. discriminate E.
  - intros c' [<- | [<- | []]]; [reflexivity | discriminate].
  - now left.
Defined.

(** ** Excluded blocks *)


